(** * arxiv_image_crawler: a shallow embedding of [crwal..py]

    The script lists the keys of the arXiv source bucket, keeps those whose
    embedded date lies in a window, downloads each kept archive, walks the
    nested archives inside it and copies the small image members to a flat
    output directory.

    Python strings are modelled as lists of characters with code points
    below 256 ([ascii]); on that range [str.lower], the [\d] class and
    case-insensitive matching of the standard library coincide with the
    definitions given here. *)

From Stdlib Require Import ZArith Lia List Ascii String Bool.
From stdpp Require Import base tactics option list gmap strings.

Open Scope Z_scope.
Open Scope list_scope.

(** ** Python strings *)

Module Py.

Abbreviation str := (list ascii).

(* a string literal of the source *)
Definition lit (s : string) : str := list_ascii_of_string s.

Definition code (c : ascii) : Z := Z.of_N (N_of_ascii c).
Definition chr (z : Z) : ascii := ascii_of_N (Z.to_N z).

Definition ch_eqb (a b : ascii) : bool := Ascii.eqb a b.

(* str.lower, on code points below 256: A-Z and the Latin-1 capitals
   0xC0-0xDE other than the multiplication sign 0xD7 *)
Definition lower_ch (c : ascii) : ascii :=
  let n := code c in
  if ((65 <=? n) && (n <=? 90)) || ((192 <=? n) && (n <=? 222) && negb (n =? 215))
  then chr (n + 32) else c.

Definition lower (s : str) : str := map lower_ch s.

Fixpoint startswith (s pre : str) {struct pre} : bool :=
  match pre, s with
  | [], _ => true
  | p :: pre', c :: s' => ch_eqb c p && startswith s' pre'
  | _ :: _, [] => false
  end.

Definition endswith (s suf : str) : bool := startswith (rev s) (rev suf).

Fixpoint mem_ch (c : ascii) (chars : str) : bool :=
  match chars with
  | [] => false
  | x :: chars' => ch_eqb c x || mem_ch c chars'
  end.

(* str.lstrip(chars), str.rstrip(chars), str.strip(chars): the argument is a
   set of characters, removed from the ends while they occur *)
Fixpoint lstrip (chars s : str) : str :=
  match s with
  | [] => []
  | c :: s' => if mem_ch c chars then lstrip chars s' else s
  end.

Definition rstrip (chars s : str) : str := rev (lstrip chars (rev s)).

Definition strip (chars s : str) : str := rstrip chars (lstrip chars s).

(* int(s) for a string of ASCII digits *)
Definition is_digit (c : ascii) : bool := (48 <=? code c) && (code c <=? 57).

Definition int_digits (s : str) : Z :=
  fold_left (fun acc c => 10 * acc + (code c - 48)) s 0.

(* "%0<w>d" % n for n >= 0 *)
Fixpoint dec_fixed (w : nat) (n : Z) : str :=
  match w with
  | O => []
  | S w' => dec_fixed w' (n / 10) ++ [chr (48 + n mod 10)]
  end.

(* os.path.basename: what follows the last slash *)
Fixpoint basename_aux (s acc : str) : str :=
  match s with
  | [] => acc
  | c :: s' => if ch_eqb c "/" then basename_aux s' [] else basename_aux s' (acc ++ [c])
  end.

Definition basename (p : str) : str := basename_aux p [].

(* os.path.join for two components *)
Definition join (a b : str) : str :=
  if startswith b (lit "/") then b
  else if (match a with [] => true | _ => false end) || endswith a (lit "/") then a ++ b
  else a ++ lit "/" ++ b.

(* index of the last occurrence of [c] in [s], as str.rfind *)
Fixpoint rfind_from (c : ascii) (s : str) (i : Z) (found : Z) : Z :=
  match s with
  | [] => found
  | x :: s' => rfind_from c s' (i + 1) (if ch_eqb x c then i else found)
  end.

Definition rfind (c : ascii) (s : str) : Z := rfind_from c s 0 (-1).

Definition slice_from (i : Z) (s : str) : str := drop (Z.to_nat i) s.
Definition slice_to (i : Z) (s : str) : str := take (Z.to_nat i) s.

(* the loop of genericpath._splitext that skips the leading dots *)
Fixpoint splitext_scan (p : str) (n : nat) (filenameIndex dotIndex : Z) : bool :=
  match n with
  | O => false
  | S n' =>
      if filenameIndex <? dotIndex then
        match nth_error p (Z.to_nat filenameIndex) with
        | Some c => if ch_eqb c "." then splitext_scan p n' (filenameIndex + 1) dotIndex
                    else true
        | None => true
        end
      else false
  end.

(* os.path.splitext *)
Definition splitext (p : str) : str * str :=
  let sepIndex := rfind "/" p in
  let dotIndex := rfind "." p in
  if (sepIndex <? dotIndex) && splitext_scan p (S (length p)) (sepIndex + 1) dotIndex
  then (slice_to dotIndex p, slice_from dotIndex p)
  else (p, []).

End Py.

(** ** A backtracking matcher for the regular expressions of the script

    Only the constructs that occur are present: literal characters,
    character classes, concatenation, ordered alternation, a greedy bounded
    repetition of a class, named groups and the end anchor. *)

Module Re.
Import Py.

Inductive regex : Type :=
| Lit (c : ascii)
| Class (p : ascii -> bool)
| Cat (r1 r2 : regex)
| Alt (r1 r2 : regex)
| Repeat (p : ascii -> bool) (lo hi : nat)
| Group (name : string) (r : regex)
| Dollar.

Definition captures := list (string * str).

(* re.IGNORECASE compares the lowered characters *)
Definition lit_matches (icase : bool) (c x : ascii) : bool :=
  if icase then ch_eqb (lower_ch x) (lower_ch c) else ch_eqb x c.

(* [$] without re.MULTILINE: the end, or just before a final newline *)
Definition at_dollar (s : str) : bool :=
  match s with
  | [] => true
  | [c] => ch_eqb c (chr 10)
  | _ => false
  end.

(* greedy p{lo,hi}: as many as possible first, giving back one at a time *)
Fixpoint rrepeat {A} (p : ascii -> bool) (lo hi : nat) (s : str)
    (k : str -> option A) : option A :=
  let stop := match lo with O => k s | S _ => None end in
  match hi with
  | O => stop
  | S hi' =>
      match s with
      | x :: s' =>
          if p x then
            match rrepeat p (Nat.pred lo) hi' s' k with
            | Some a => Some a
            | None => stop
            end
          else stop
      | [] => stop
      end
  end.

Fixpoint rmatch {A} (icase : bool) (r : regex) (s : str) (caps : captures)
    (k : str -> captures -> option A) : option A :=
  match r with
  | Lit c =>
      match s with
      | x :: s' => if lit_matches icase c x then k s' caps else None
      | [] => None
      end
  | Class p =>
      match s with
      | x :: s' => if p x then k s' caps else None
      | [] => None
      end
  | Cat r1 r2 => rmatch icase r1 s caps (fun s1 caps1 => rmatch icase r2 s1 caps1 k)
  | Alt r1 r2 =>
      match rmatch icase r1 s caps k with
      | Some a => Some a
      | None => rmatch icase r2 s caps k
      end
  | Repeat p lo hi => rrepeat p lo hi s (fun s1 => k s1 caps)
  | Group name r =>
      rmatch icase r s caps
        (fun s1 caps1 => k s1 ((name, take (length s - length s1)%nat s) :: caps1))
  | Dollar => if at_dollar s then k s caps else None
  end.

(* pattern.match(s): anchored at the start; the result is the unmatched
   rest and the groups *)
Definition re_match (icase : bool) (r : regex) (s : str) : option (str * captures) :=
  rmatch icase r s [] (fun rest caps => Some (rest, caps)).

(* re.search(pattern, s): the first start position that matches *)
Fixpoint re_search (icase : bool) (r : regex) (s : str) : option (str * captures) :=
  match re_match icase r s with
  | Some m => Some m
  | None => match s with
            | [] => None
            | _ :: s' => re_search icase r s'
            end
  end.

Fixpoint group (name : string) (caps : captures) : option str :=
  match caps with
  | [] => None
  | (n, v) :: caps' => if String.eqb n name then Some v else group name caps'
  end.

Fixpoint lits (s : str) : regex :=
  match s with
  | [] => Repeat (fun _ => false) 0 0
  | [c] => Lit c
  | c :: s' => Cat (Lit c) (lits s')
  end.

Definition range (a b : ascii) (x : ascii) : bool :=
  (code a <=? code x) && (code x <=? code b).

(* The declarative reading of a pattern: matching [r] at the front of [s]
   can leave [rest].  The matcher above picks one such [rest], the first in
   backtracking order. *)
Fixpoint sem (icase : bool) (r : regex) (s rest : str) : Prop :=
  match r with
  | Lit c => exists x, s = x :: rest /\ lit_matches icase c x = true
  | Class p => exists x, s = x :: rest /\ p x = true
  | Cat r1 r2 => exists mid, sem icase r1 s mid /\ sem icase r2 mid rest
  | Alt r1 r2 => sem icase r1 s rest \/ sem icase r2 s rest
  | Repeat p lo hi =>
      exists cs, s = cs ++ rest /\ Forall (fun x => p x = true) cs /\
                 (lo <= length cs <= hi)%nat
  | Group _ r => sem icase r s rest
  | Dollar => rest = s /\ at_dollar s = true
  end.

End Re.

(** ** Naive datetimes and [datetime.strptime] *)

Module Datetime.
Import Py Re.

Record datetime : Type := mk_datetime {
  year : Z; month : Z; day : Z;
  hour : Z; minute : Z; second : Z; microsecond : Z }.

(* datetime(y, m, d): the time of day defaults to midnight *)
Definition date (y m d : Z) : datetime := mk_datetime y m d 0 0 0 0.

Definition fields (t : datetime) : list Z :=
  [year t; month t; day t; hour t; minute t; second t; microsecond t].

(* comparison of naive datetimes is the lexicographic one on the fields *)
Fixpoint lex_le (a b : list Z) : bool :=
  match a, b with
  | x :: a', y :: b' => (x <? y) || ((x =? y) && lex_le a' b')
  | _, _ => true
  end.

Definition le (a b : datetime) : bool := lex_le (fields a) (fields b).

(* str(datetime): isoformat(sep=' ') *)
Definition to_str (t : datetime) : str :=
  dec_fixed 4 (year t) ++ lit "-" ++ dec_fixed 2 (month t) ++ lit "-" ++
  dec_fixed 2 (day t) ++ lit " " ++ dec_fixed 2 (hour t) ++ lit ":" ++
  dec_fixed 2 (minute t) ++ lit ":" ++ dec_fixed 2 (second t) ++
  (if microsecond t =? 0 then [] else lit "." ++ dec_fixed 6 (microsecond t)).

(* the directives of a format string; only those the script uses *)
Inductive directive : Type := Dy | Dm | Df.

Inductive fmt_item : Type :=
| FChar (c : ascii)
| FDir (d : directive).

(* None: a directive that is not modelled *)
Fixpoint parse_format (f : str) : option (list fmt_item) :=
  match f with
  | [] => Some []
  | c :: f' =>
      if ch_eqb c "%" then
        match f' with
        | d :: f'' =>
            let rest := parse_format f'' in
            if ch_eqb d "y" then option_map (cons (FDir Dy)) rest
            else if ch_eqb d "m" then option_map (cons (FDir Dm)) rest
            else if ch_eqb d "f" then option_map (cons (FDir Df)) rest
            else None
        | [] => None
        end
      else option_map (cons (FChar c)) (parse_format f')
  end.

(* _strptime.TimeRE:
     %y  (?P<y>\d\d)
     %m  (?P<m>1[0-2]|0[1-9]|[1-9])
     %f  (?P<f>[0-9]{1,6})                                              *)
Definition directive_regex (d : directive) : regex :=
  match d with
  | Dy => Group "y" (Cat (Class is_digit) (Class is_digit))
  | Dm => Group "m" (Alt (Cat (Lit "1") (Class (range "0" "2")))
                    (Alt (Cat (Lit "0") (Class (range "1" "9")))
                         (Class (range "1" "9"))))
  | Df => Group "f" (Repeat (range "0" "9") 1 6)
  end.

Definition item_regex (i : fmt_item) : regex :=
  match i with
  | FChar c => Lit c
  | FDir d => directive_regex d
  end.

Fixpoint format_regex (items : list fmt_item) : regex :=
  match items with
  | [] => Repeat (fun _ => false) 0 0
  | [i] => item_regex i
  | i :: items' => Cat (item_regex i) (format_regex items')
  end.

Definition two_digit_year (y : Z) : Z := if y <=? 68 then y + 2000 else y + 1900.

Definition pad_fraction (s : str) : str := s ++ repeat "0"%char (6 - length s).

(* datetime.strptime(data_string, format); None is the ValueError.  The
   pattern is compiled with IGNORECASE and matched at the start; data left
   over after the match is an error. *)
Definition strptime (data_string format : str) : option datetime :=
  match parse_format format with
  | None => None
  | Some items =>
      match re_match true (format_regex items) data_string with
      | None => None
      | Some (rest, found) =>
          match rest with
          | _ :: _ => None
          | [] =>
              let y := match group "y" found with
                       | Some s => two_digit_year (int_digits s)
                       | None => 1900
                       end in
              let m := match group "m" found with
                       | Some s => int_digits s
                       | None => 1
                       end in
              let f := match group "f" found with
                       | Some s => int_digits (pad_fraction s)
                       | None => 0
                       end in
              Some (mk_datetime y m 1 0 0 0 f)
          end
      end
  end.

End Datetime.

(** ** Archives, the local disk and the effects of the script *)

Module Sys.
Import Py.

Inductive codec : Type := Gzip | Bz2 | Xz.

Inductive ftype : Type := Regular | Directory | Link | Special.

(* What a file holds, as far as [tarfile] and [gzip] can tell: other bytes,
   a tar container with its members in order, or a compressed stream.  A
   member records the name, the size and the type of its header. *)
Inductive blob : Type :=
| Raw (bytes : str)
| Tar (members : list member)
| Comp (c : codec) (inner : blob)
with member : Type :=
| Member (name : str) (size : Z) (type : ftype) (data : blob).

Definition name (m : member) : str := match m with Member n _ _ _ => n end.
Definition size (m : member) : Z := match m with Member _ s _ _ => s end.
Definition type (m : member) : ftype := match m with Member _ _ t _ => t end.
Definition data (m : member) : blob := match m with Member _ _ _ d => d end.

(* TarInfo.isfile() *)
Definition isfile (m : member) : bool :=
  match type m with Regular => true | _ => false end.

(* An instance of Exception: its class and its message *)
Inductive exn : Type := Exn (cls : string) (msg : str).

Definition exn_str (e : exn) : str := match e with Exn _ m => m end.

(* The world the script runs in.  [bucket], [entropy] and [faults] are
   never written.  [faults n] is the failure, if any, that the environment
   inflicts on the n-th system call of the run (a full disk, a dropped
   connection, a damaged archive, a permission error). *)
Record world : Type := mk_world {
  bucket : gmap str blob;
  fs : gmap str blob;
  dirs : gset str;
  stdout : list str;
  entropy : nat -> Z;
  drawn : nat;
  faults : nat -> option exn;
  clock : nat }.

Definition set_fs (f : gmap str blob -> gmap str blob) (w : world) : world :=
  mk_world (bucket w) (f (fs w)) (dirs w) (stdout w) (entropy w) (drawn w)
           (faults w) (clock w).

Definition set_dirs (f : gset str -> gset str) (w : world) : world :=
  mk_world (bucket w) (fs w) (f (dirs w)) (stdout w) (entropy w) (drawn w)
           (faults w) (clock w).

Definition set_stdout (f : list str -> list str) (w : world) : world :=
  mk_world (bucket w) (fs w) (dirs w) (f (stdout w)) (entropy w) (drawn w)
           (faults w) (clock w).

Definition draw (w : world) : world :=
  mk_world (bucket w) (fs w) (dirs w) (stdout w) (entropy w) (S (drawn w))
           (faults w) (clock w).

Definition tick (w : world) : world :=
  mk_world (bucket w) (fs w) (dirs w) (stdout w) (entropy w) (drawn w)
           (faults w) (S (clock w)).

Inductive outcome (A : Type) : Type :=
| Returns (a : A)
| Raises (e : exn).
Arguments Returns {A} a.
Arguments Raises {A} e.

Definition M (A : Type) : Type := world -> outcome A * world.

Definition ret {A} (a : A) : M A := fun w => (Returns a, w).

Definition bind {A B} (m : M A) (f : A -> M B) : M B :=
  fun w => match m w with
           | (Returns a, w') => f a w'
           | (Raises e, w') => (Raises e, w')
           end.

Definition raise {A} (e : exn) : M A := fun w => (Raises e, w).

(* try: m  except Exception as e: h e *)
Definition try_except {A} (m : M A) (h : exn -> M A) : M A :=
  fun w => match m w with
           | (Returns a, w') => (Returns a, w')
           | (Raises e, w') => h e w'
           end.

Declare Scope py_scope.
Delimit Scope py_scope with py.
Notation "x <- m ;; k" := (bind m (fun x => k))
  (at level 100, m at next level, right associativity) : py_scope.
Notation "m ;; k" := (bind m (fun _ => k))
  (at level 100, right associativity) : py_scope.
Open Scope py_scope.

(* for a in l: body a *)
Definition for_each {A} (body : A -> M unit) : list A -> M unit :=
  fix go (l : list A) : M unit :=
    match l with
    | [] => ret tt
    | a :: l' => body a ;; go l'
    end.

(* A system call: the environment may make it fail before it acts *)
Definition syscall {A} (op : M A) : M A :=
  fun w => match faults w (clock w) with
           | Some e => (Raises e, tick w)
           | None => op (tick w)
           end.

Definition print (line : str) : M unit :=
  fun w => (Returns tt, set_stdout (fun out => out ++ [line]) w).

(* os.path.exists never raises *)
Definition path_exists (p : str) : M bool :=
  fun w => (Returns (bool_decide (p ∈ dirs w) || bool_decide (is_Some (fs w !! p))), w).

Definition makedirs (p : str) : M unit :=
  syscall (fun w =>
    if bool_decide (p ∈ dirs w) || bool_decide (is_Some (fs w !! p))
    then (Raises (Exn "FileExistsError" (lit "[Errno 17] File exists")), w)
    else (Returns tt, set_dirs (fun d => {[p]} ∪ d) w)).

(* client.download_file(Bucket, Key, Filename) *)
Definition download_file (key filename : str) : M unit :=
  syscall (fun w =>
    match bucket w !! key with
    | Some b => (Returns tt, set_fs (fun f => <[filename := b]> f) w)
    | None => (Raises (Exn "ClientError" (lit "An error occurred (404) when calling the HeadObject operation: Not Found")), w)
    end).

(* open(path, 'wb'): the file exists and is empty from here on *)
Definition open_wb (path : str) : M unit :=
  syscall (fun w => (Returns tt, set_fs (fun f => <[path := Raw []]> f) w)).

(* out_file.write(content), up to the close at the end of the with block *)
Definition write (path : str) (content : blob) : M unit :=
  syscall (fun w => (Returns tt, set_fs (fun f => <[path := content]> f) w)).

(* archive.extractfile(member): the handle on a member *)
Definition extractfile (m : member) : M member := syscall (ret m).

(* file.read() on such a handle *)
Definition read (file : member) : M blob := syscall (ret (data file)).

(* archive.getmembers() *)
Definition getmembers (ms : list member) : M (list member) := syscall (ret ms).

(* opening an existing file for reading *)
Definition open_rb (path : str) : M blob :=
  syscall (fun w =>
    match fs w !! path with
    | Some b => (Returns b, w)
    | None => (Raises (Exn "FileNotFoundError" (lit "[Errno 2] No such file or directory")), w)
    end).

Definition read_error {A} (msg : string) : M A := raise (Exn "ReadError" (lit msg)).

(* the members tarfile finds in a stream, for mode 'r:*' (any compression),
   'r:gz' (gzip only) and for an uncompressed stream *)
Definition tar_members (b : blob) : option (list member) :=
  match b with Tar ms => Some ms | _ => None end.

Definition tar_any (b : blob) : option (list member) :=
  match b with
  | Tar ms => Some ms
  | Comp _ inner => tar_members inner
  | Raw _ => None
  end.

Definition tar_gz (b : blob) : option (list member) :=
  match b with
  | Comp Gzip inner => tar_members inner
  | _ => None
  end.

(* os.remove *)
Definition os_remove (path : str) : M unit :=
  syscall (fun w =>
    match fs w !! path with
    | Some _ => (Returns tt, set_fs (fun f => delete path f) w)
    | None => (Raises (Exn "FileNotFoundError" (lit "[Errno 2] No such file or directory")), w)
    end).

(* uuid.uuid4(): sixteen random bytes with the version and variant bits
   set; the value is the 128-bit integer of the UUID *)
Definition uuid4_of (random : Z) : Z :=
  let i := random mod 2 ^ 128 in
  let i := Z.land i (Z.lnot (Z.shiftl 49152 48)) in
  let i := Z.lor i (Z.shiftl 32768 48) in
  let i := Z.land i (Z.lnot (Z.shiftl 61440 64)) in
  Z.lor i (Z.shiftl 4 76).

Definition uuid4 : M Z :=
  fun w => (Returns (uuid4_of (entropy w (drawn w))), draw w).

Definition hex_digit (n : Z) : ascii :=
  if n <? 10 then chr (48 + n) else chr (87 + n).

(* "%0<w>x" % n *)
Fixpoint hex_fixed (w : nat) (n : Z) : str :=
  match w with
  | O => []
  | S w' => hex_fixed w' (n / 16) ++ [hex_digit (n mod 16)]
  end.

(* str(UUID) *)
Definition uuid_str (u : Z) : str :=
  let hex := hex_fixed 32 u in
  take 8 hex ++ lit "-" ++ take 4 (drop 8 hex) ++ lit "-" ++
  take 4 (drop 12 hex) ++ lit "-" ++ take 4 (drop 16 hex) ++ lit "-" ++ drop 20 hex.

End Sys.

(** ** The script *)

Module Crawler.
Import Py Re Datetime Sys.

(** Configuration read at import time *)

Abbreviation environ := (gmap str str).

Definition getenv (env : environ) (var : string) : option str := env !! lit var.

Definition AWS_ACCESS_KEY (env : environ) : option str := getenv env "AWS_ACCESS_KEY".
Definition AWS_SECRET_KEY (env : environ) : option str := getenv env "AWS_SECRET_KEY".
Definition MAX_FILE_SIZE : Z := 700 * 1024.
Definition AWS_REGION : str := lit "us-east-1".

Definition S3_BUCKET : str := lit "arxiv".
Definition S3_PREFIX : str := lit "src/".

Definition IMAGE_SAVE_DIR : str := lit "./arxiv_images".

Definition SUPPORTED_IMAGE_FORMATS : list str :=
  [lit ".png"; lit ".jpg"; lit ".jpeg"; lit ".gif"].

(* the keyword arguments of boto3.resource *)
Record resource_args : Type := mk_resource_args {
  service_name : str;
  aws_access_key_id : option str;
  aws_secret_access_key : option str;
  region_name : str }.

Definition s3_resource (env : environ) : resource_args :=
  mk_resource_args (lit "s3") (AWS_ACCESS_KEY env) (AWS_SECRET_KEY env) (lit "us-east-1").

(** generate_unique_filename *)

Definition unique_filename (original_name : str) (unique_id : Z) : str :=
  let '(base_name, ext) := splitext original_name in
  base_name ++ lit "_" ++ uuid_str unique_id ++ ext.

Definition generate_unique_filename (save_dir original_name : str) : M str :=
  unique_id <- uuid4 ;;
  ret (join save_dir (unique_filename original_name unique_id)).

(** extract_images_from_archive *)

Definition is_image_name (n : str) : bool :=
  existsb (fun ext => endswith (lower n) ext) SUPPORTED_IMAGE_FORMATS.

Definition is_gz_name (n : str) : bool := endswith (lower n) (lit ".gz").

(* lines 125-130: the image is copied under a fresh name *)
Definition save_image (save_dir : str) (m : member) : M unit :=
  save_path <- generate_unique_filename save_dir (basename (name m)) ;;
  file <- extractfile m ;;
  open_wb save_path ;;
  content <- read file ;;
  write save_path content ;;
  print (lit "Extracted image: " ++ save_path).

(* what tarfile.open(path, 'r:gz') reports for a file that is not a
   gzip-compressed tar *)
Definition gz_open_error (b : blob) : exn :=
  match b with
  | Comp Gzip _ => Exn "ReadError" (lit "invalid header")
  | _ => Exn "ReadError" (lit "not a gzip file")
  end.

(* One turn of the loop over archive.getmembers().  The archive that
   tarfile.open reads back from gz_file_path is the content written to that
   path just before, that is, the data of the member. *)
Fixpoint extract_member (save_dir : str) (m : member) {struct m} : M unit :=
  match m with
  | Member name size type data =>
      if isfile m && is_image_name name then
        let file_size := size in
        if file_size <=? MAX_FILE_SIZE then save_image save_dir m
        else ret tt
      else if isfile m && is_gz_name name then
        gz_file_path <- generate_unique_filename save_dir (basename name) ;;
        open_wb gz_file_path ;;
        file <- extractfile m ;;
        content <- read file ;;
        write gz_file_path content ;;
        _ <- open_rb gz_file_path ;;
        match data with
        | Comp Gzip (Tar nested) =>
            nested_tar <- getmembers nested ;;
            for_each (extract_member save_dir) nested ;;
            os_remove gz_file_path
        | _ => raise (gz_open_error data)
        end
      else ret tt
  end.

Definition extract_images_from_archive (archive : list member) (save_dir : str) : M unit :=
  ms <- getmembers archive ;;
  for_each (extract_member save_dir) ms.

(* lines 134-139: a member that is itself a compressed archive *)
Definition recurse_into_gz (save_dir : str) (m : member) : M unit :=
  gz_file_path <- generate_unique_filename save_dir (basename (name m)) ;;
  open_wb gz_file_path ;;
  file <- extractfile m ;;
  content <- read file ;;
  write gz_file_path content ;;
  _ <- open_rb gz_file_path ;;
  match tar_gz (data m) with
  | Some nested_tar =>
      extract_images_from_archive nested_tar save_dir ;;
      os_remove gz_file_path
  | None => raise (gz_open_error (data m))
  end.

(** extract_images_from_gz *)

Definition extract_images_from_gz (gz_path save_dir : str) : M unit :=
  try_except
    (gz_file <- open_rb gz_path ;;
     match gz_file with
     | Comp Gzip inner =>
         match tar_any inner with
         | Some tar => extract_images_from_archive tar save_dir
         | None => read_error "file could not be opened successfully"
         end
     | _ => raise (Exn "BadGzipFile" (lit "Not a gzipped file"))
     end)
    (fun e => print (lit "Error extracting " ++ gz_path ++ lit ": " ++ exn_str e)).

(** extract_from_tar *)

Definition extract_from_tar_member (save_dir : str) (m : member) : M unit :=
  if isfile m && is_gz_name (name m) then
    let gz_file_path := join save_dir (basename (name m)) in
    open_wb gz_file_path ;;
    file <- extractfile m ;;
    content <- read file ;;
    write gz_file_path content ;;
    extract_images_from_gz gz_file_path save_dir ;;
    os_remove gz_file_path
  else ret tt.

Definition extract_from_tar (tar_path save_dir : str) : M unit :=
  e <- path_exists save_dir ;;
  (if negb e then makedirs save_dir else ret tt) ;;
  f <- open_rb tar_path ;;
  match tar_any f with
  | Some archive =>
      ms <- getmembers archive ;;
      for_each (extract_from_tar_member save_dir) ms
  | None => read_error "file could not be opened successfully"
  end.

(** download_and_extract_images *)

Definition local_path_of (s3_key save_dir : str) : str := join save_dir (basename s3_key).

(* lines 75-86: the directory, the download and its message *)
Definition fetch (s3_key save_dir : str) : M unit :=
  let local_path := local_path_of s3_key save_dir in
  e <- path_exists save_dir ;;
  (if negb e then makedirs save_dir else ret tt) ;;
  download_file s3_key local_path ;;
  print (lit "Downloaded: " ++ s3_key).

(* lines 95-98: the downloaded archive is deleted *)
Definition delete_archive (local_path : str) : M unit :=
  e <- path_exists local_path ;;
  if e then
    os_remove local_path ;;
    print (lit "Deleted archive: " ++ local_path)
  else ret tt.

(* the body of the try block *)
Definition download_and_extract_body (s3_key save_dir : str) : M unit :=
  let local_path := local_path_of s3_key save_dir in
  fetch s3_key save_dir ;;
  if endswith local_path (lit ".tar") || endswith local_path (lit ".tar.gz") then
    extract_from_tar local_path save_dir ;;
    delete_archive local_path
  else
    print (lit "Unsupported file format: " ++ local_path).

Definition error_line (s3_key : str) (e : exn) : str :=
  lit "Error downloading and extracting " ++ s3_key ++ lit ": " ++ exn_str e.

Definition download_and_extract_images (s3_key save_dir : str) : M unit :=
  try_except
    (download_and_extract_body s3_key save_dir)
    (fun e => print (error_line s3_key e)).

(** process_arxiv_files *)

Definition key_format : str := lit "src/arXiv_src_%y%m_%f".

(* r'(\.tar\.gz|\.tar|\.zip)$' *)
Definition archive_suffix : regex :=
  Cat (Group "1" (Alt (lits (lit ".tar.gz")) (Alt (lits (lit ".tar")) (lits (lit ".zip")))))
      Dollar.

(* the body of the loop over result['Contents'] *)
Definition process_item (cutoff_datetime : datetime) (s3_key : str) : M unit :=
  match strptime (strip (lit ".tar") s3_key) key_format with
  | None => ret tt
  | Some file_datetime =>
      if le (date 2023 9 19) file_datetime && le file_datetime cutoff_datetime then
        match re_search false archive_suffix s3_key with
        | Some _ =>
            print (lit "Processing file: " ++ s3_key) ;;
            download_and_extract_images s3_key IMAGE_SAVE_DIR
        | None => ret tt
        end
      else ret tt
  end.

(* A page of list_objects_v2: the keys under 'Contents', when present.
   Fetching a page is a system call. *)
Definition page : Type := option (list str).

Definition process_page (cutoff_datetime : datetime) (result : page) : M unit :=
  syscall (ret tt) ;;
  match result with
  | Some contents => for_each (process_item cutoff_datetime) contents
  | None => print (lit "No files found for year " ++ to_str cutoff_datetime)
  end.

Definition process_arxiv_files (cutoff_datetime : datetime) (listing : list page) : M unit :=
  e <- path_exists IMAGE_SAVE_DIR ;;
  (if negb e then makedirs IMAGE_SAVE_DIR else ret tt) ;;
  for_each (process_page cutoff_datetime) listing.

(* the cutoff of the __main__ block *)
Definition main_cutoff : datetime := date 2024 1 1.

(** Notions the properties are stated with *)

(* the key reaches download_and_extract_images *)
Definition forwarded (cutoff_datetime : datetime) (s3_key : str) : bool :=
  match strptime (strip (lit ".tar") s3_key) key_format with
  | None => false
  | Some file_datetime =>
      le (date 2023 9 19) file_datetime && le file_datetime cutoff_datetime &&
      bool_decide (is_Some (re_search false archive_suffix s3_key))
  end.

(* the member is handed to the nested-archive branch *)
Definition is_nested_candidate (m : member) : bool :=
  negb (isfile m && is_image_name (name m)) && (isfile m && is_gz_name (name m)).

(* the member passes the filter of the image branch *)
Definition qualifies (m : member) : bool :=
  isfile m && is_image_name (name m) && (size m <=? MAX_FILE_SIZE).

End Crawler.

(** ** Worlds and archives used as examples *)

Module Scenarios.
Import Py Re Datetime Sys Crawler.

(* nothing on disk but [files], no failure from the environment, and the
   n-th random draw is n *)
Definition quiet_world (remote files : gmap str blob) : world :=
  mk_world remote files ∅ [] (fun n => Z.of_nat n) 0 (fun _ => None) 0.

(* a paper whose source holds a small image, a large one, and a
   gzip-compressed PostScript figure, which is not a tar archive *)
Definition paper_with_eps : blob :=
  Comp Gzip (Tar [Member (lit "fig/plot.png") 10240 Regular (Raw (lit "PNG"));
                  Member (lit "fig/photo.jpg") 819200 Regular (Raw (lit "JFIF"));
                  Member (lit "fig/diagram.eps.gz") 2048 Regular
                         (Comp Gzip (Raw (lit "%!PS-Adobe")))]).

Definition batch_with_eps : blob :=
  Tar [Member (lit "2310/2310.00001.gz") 900000 Regular paper_with_eps].

Definition leak_world : world :=
  quiet_world ∅ {[ lit "./arxiv_images/arXiv_src_2310_001.tar" := batch_with_eps ]}.

(* the tar of the round trip: one nested gzip-tar with a 10 KiB .png and an
   800 KiB .jpg *)
Definition paper_two_images : blob :=
  Comp Gzip (Tar [Member (lit "a.png") 10240 Regular (Raw (lit "PNG"));
                  Member (lit "b.jpg") 819200 Regular (Raw (lit "JFIF"))]).

Definition nested_paper : blob :=
  Comp Gzip (Tar [Member (lit "inner/source.tar.gz") 5000 Regular paper_two_images]).

Definition roundtrip_world : world :=
  quiet_world ∅ {[ lit "./arxiv_images/in.tar" :=
                     Tar [Member (lit "2310/2310.00002.gz") 5000 Regular nested_paper] ]}.

(* two archives in the bucket; the environment refuses the sixth system
   call of the run, which is the os.remove of the first archive *)
Definition permission_error : exn :=
  Exn "PermissionError" (lit "[Errno 13] Permission denied").

Definition two_keys : list str :=
  [lit "src/arXiv_src_2310_001.tar"; lit "src/arXiv_src_2310_002.tar"].

Definition remove_fails_world : world :=
  mk_world {[ lit "src/arXiv_src_2310_001.tar" := Tar [];
              lit "src/arXiv_src_2310_002.tar" := Tar [] ]}
           ∅ ∅ [] (fun n => Z.of_nat n) 0
           (fun n => if (n =? 5)%nat then Some permission_error else None) 0.

(* the world of one key, after the directory was made and the page fetched *)
Definition one_key_world : world :=
  mk_world {[ lit "src/arXiv_src_2310_001.tar" := Tar [] ]}
           ∅ {[ lit "./arxiv_images" ]} [] (fun n => Z.of_nat n) 0
           (fun n => if (n =? 3)%nat then Some permission_error else None) 0.

(* a bucket that lacks the key asked for *)
Definition empty_bucket_world : world := quiet_world ∅ ∅.

(* a bucket with an object that is not a tar *)
Definition zip_world : world :=
  quiet_world {[ lit "src/paper.zip" := Raw (lit "PK") ]} ∅.

Definition small_png : member :=
  Member (lit "fig/a.PNG") 10240 Regular (Raw (lit "PNG")).

Definition other_png : member :=
  Member (lit "img/a.PNG") 2048 Regular (Raw (lit "PNG2")).

(* the same world one random draw later *)
Definition next_draw_world : world := draw (quiet_world ∅ ∅).

End Scenarios.

(** ** Notions for the further properties *)

Module Notions.
Import Py Re Datetime Sys Crawler.

(* the key arXiv gives to archive number [seq] of the month [yymm] *)
Definition arxiv_key (yymm seq : str) : str :=
  lit "src/arXiv_src_" ++ yymm ++ lit "_" ++ seq ++ lit ".tar".

(* two digits that name a month, 01 to 12 *)
Definition month_digits (m1 m2 : ascii) : bool :=
  (ch_eqb m1 "0" && range "1" "9" m2) || (ch_eqb m1 "1" && range "0" "2" m2).

(* the environment inflicts no failure during the run *)
Definition no_faults (w : world) : Prop := forall n, faults w n = None.

(* what the script itself cannot change in a world, and the directories *)
Definition same_surroundings (w w' : world) : Prop :=
  bucket w' = bucket w /\ dirs w' = dirs w /\
  entropy w' = entropy w /\ faults w' = faults w.

(* the diagnostic line for a page without 'Contents' *)
Definition no_files_line (cutoff_datetime : datetime) : str :=
  lit "No files found for year " ++ to_str cutoff_datetime.

(* the lines a listing without any forwarded key produces *)
Definition empty_page_lines (cutoff_datetime : datetime) (listing : list page) : list str :=
  flat_map (fun result : page =>
              match result with
              | Some _ => []
              | None => [no_files_line cutoff_datetime]
              end) listing.

(* every key of the listing is dropped by the lister *)
Definition nothing_forwarded (cutoff_datetime : datetime) (listing : list page) : Prop :=
  Forall (fun result : page =>
            match result with
            | Some contents => Forall (fun k => forwarded cutoff_datetime k = false) contents
            | None => True
            end) listing.

(* the member is not a regular file named .gz *)
Definition not_gz_member (m : member) : Prop := isfile m && is_gz_name (name m) = false.

(* the computation leaves the surroundings of every world as they are *)
Definition keeps_surroundings {A} (m : M A) : Prop :=
  forall w, same_surroundings w (snd (m w)).

(* the line printed for a copied image *)
Definition image_line (save_path : str) : str := lit "Extracted image: " ++ save_path.

(* the lines the image branch prints for the members of a flat archive, the
   k-th random draw being the next one *)
Fixpoint image_lines (save_dir : str) (random : nat -> Z) (k : nat) (ms : list member)
    : list str :=
  match ms with
  | [] => []
  | m :: ms' =>
      if qualifies m then
        image_line (join save_dir (unique_filename (basename (name m)) (uuid4_of (random k))))
          :: image_lines save_dir random (S k) ms'
      else image_lines save_dir random k ms'
  end.

End Notions.

(** * Properties *)

(** ** Strings *)

Module PyFacts.
Import Py.

Lemma ch_eqb_true (a b : ascii) : ch_eqb a b = true <-> a = b.
Proof. unfold ch_eqb. apply Ascii.eqb_eq. Qed.

Lemma ch_eqb_false (a b : ascii) : ch_eqb a b = false <-> a <> b.
Proof. unfold ch_eqb. apply Ascii.eqb_neq. Qed.

Lemma startswith_app (pre t : str) : startswith (pre ++ t) pre = true.
Proof.
  induction pre as [|p pre IH]; simpl; [done|].
  rewrite IH, andb_true_r. by apply ch_eqb_true.
Qed.

Lemma startswith_inv (s pre : str) :
  startswith s pre = true -> exists t, s = pre ++ t.
Proof.
  revert s. induction pre as [|p pre IH]; intros s H; simpl in *.
  - by exists s.
  - destruct s as [|c s]; [done|].
    apply andb_true_iff in H as [Hc Hs]. apply ch_eqb_true in Hc as ->.
    destruct (IH _ Hs) as [t ->]. by exists t.
Qed.

Lemma endswith_app (t suf : str) : endswith (t ++ suf) suf = true.
Proof. unfold endswith. rewrite rev_app_distr. apply startswith_app. Qed.

Lemma endswith_inv (s suf : str) :
  endswith s suf = true -> exists t, s = t ++ suf.
Proof.
  unfold endswith. intros H. apply startswith_inv in H as [t Ht].
  exists (rev t). apply (f_equal (@rev ascii)) in Ht.
  by rewrite rev_involutive, rev_app_distr, rev_involutive in Ht.
Qed.

(* lstrip removes a prefix, and stops at the latest at a character that is
   not in the set *)
Lemma lstrip_keeps_last (chars t : str) (c : ascii) :
  mem_ch c chars = false -> exists t', lstrip chars (t ++ [c]) = t' ++ [c].
Proof.
  intros Hc. induction t as [|x t IH]; simpl.
  - rewrite Hc. by exists [].
  - destruct (mem_ch x chars); [apply IH|]. by exists (x :: t).
Qed.

Lemma rstrip_keeps_last (chars t : str) (c : ascii) :
  mem_ch c chars = false -> rstrip chars (t ++ [c]) = t ++ [c].
Proof.
  intros Hc. unfold rstrip. rewrite rev_app_distr. simpl. rewrite Hc.
  simpl. by rewrite rev_involutive.
Qed.

Lemma strip_keeps_last (chars t : str) (c : ascii) :
  mem_ch c chars = false -> exists t', strip chars (t ++ [c]) = t' ++ [c].
Proof.
  intros Hc. unfold strip.
  destruct (lstrip_keeps_last chars t c Hc) as [t' ->].
  exists t'. by apply rstrip_keeps_last.
Qed.

End PyFacts.

(** ** The matcher finds only what the pattern describes *)

Module ReFacts.
Import Py Re PyFacts.

Lemma rrepeat_sound {A} (p : ascii -> bool) (hi lo : nat) (s : str)
    (k : str -> option A) (a : A) :
  rrepeat p lo hi s k = Some a ->
  exists cs rest, s = cs ++ rest /\ Forall (fun x => p x = true) cs /\
                  (lo <= length cs <= hi)%nat /\ k rest = Some a.
Proof.
  revert lo s. induction hi as [|hi IH]; intros lo s H; simpl in H.
  - destruct lo; [|done]. exists [], s. simpl. repeat split; auto; lia.
  - assert (Hstop : match lo with O => k s | S _ => None end = Some a ->
              exists cs rest, s = cs ++ rest /\ Forall (fun x => p x = true) cs /\
                              (lo <= length cs <= S hi)%nat /\ k rest = Some a).
    { destruct lo; [|done]. intros Hk. exists [], s. simpl.
      repeat split; auto; lia. }
    destruct s as [|x s]; [by apply Hstop|].
    destruct (p x) eqn:Hp; [|by apply Hstop].
    destruct (rrepeat p (Nat.pred lo) hi s k) eqn:Hr; [|by apply Hstop].
    injection H as ->.
    destruct (IH _ _ Hr) as (cs & rest & -> & Hall & Hlen & Hk).
    exists (x :: cs), rest. simpl. repeat split; auto; lia.
Qed.

Lemma rmatch_sound {A} (icase : bool) (r : regex) :
  forall (s : str) (caps : captures) (k : str -> captures -> option A) (a : A),
  rmatch icase r s caps k = Some a ->
  exists rest caps', sem icase r s rest /\ k rest caps' = Some a.
Proof.
  induction r as [c|p|r1 IH1 r2 IH2|r1 IH1 r2 IH2|p lo hi|n r IH|];
    intros s caps k a H; simpl in H.
  - destruct s as [|x s]; [done|]. destruct (lit_matches icase c x) eqn:E; [|done].
    exists s, caps. split; [|done]. simpl. by exists x.
  - destruct s as [|x s]; [done|]. destruct (p x) eqn:E; [|done].
    exists s, caps. split; [|done]. simpl. by exists x.
  - apply IH1 in H as (mid & caps1 & H1 & H).
    apply IH2 in H as (rest & caps2 & H2 & H).
    exists rest, caps2. split; [|done]. simpl. by exists mid.
  - destruct (rmatch icase r1 s caps k) eqn:E.
    + injection H as ->. apply IH1 in E as (rest & caps' & H1 & Hk).
      exists rest, caps'. split; [|done]. simpl. by left.
    + apply IH2 in H as (rest & caps' & H2 & Hk).
      exists rest, caps'. split; [|done]. simpl. by right.
  - apply rrepeat_sound in H as (cs & rest & -> & Hall & Hlen & Hk).
    exists rest, caps. split; [|done]. simpl. by exists cs.
  - apply IH in H as (rest & caps' & Hr & Hk). eauto.
  - destruct (at_dollar s) eqn:E; [|done]. exists s, caps. by split.
Qed.

Lemma re_match_sound (icase : bool) (r : regex) (s rest : str) (caps : captures) :
  re_match icase r s = Some (rest, caps) -> sem icase r s rest.
Proof.
  unfold re_match. intros H.
  apply rmatch_sound in H as (rest' & caps' & Hs & Hk). by injection Hk as -> _.
Qed.

Lemma re_search_sound (icase : bool) (r : regex) (s : str) (m : str * captures) :
  re_search icase r s = Some m ->
  exists pre s', s = pre ++ s' /\ sem icase r s' (fst m).
Proof.
  induction s as [|x s IH]; simpl; intros H.
  - destruct (re_match icase r []) as [m'|] eqn:E; [|done].
    injection H as ->. destruct m as [rest caps].
    exists [], []. split; [done|]. by eapply re_match_sound.
  - destruct (re_match icase r (x :: s)) as [m'|] eqn:E.
    + injection H as ->. destruct m as [rest caps].
      exists [], (x :: s). split; [done|]. by eapply re_match_sound.
    + destruct (IH H) as (pre & s' & -> & Hs). by exists (x :: pre), s'.
Qed.

End ReFacts.

(** ** The catalog lister *)

Module ListerFacts.
Import Py Re Datetime Sys Crawler PyFacts ReFacts.

Lemma nonempty_last {A} (l : list A) :
  (1 <= length l)%nat -> exists t c, l = t ++ [c].
Proof.
  destruct l as [|x l] using rev_ind; simpl; [lia|]. intros _. by exists l, x.
Qed.

Ltac break_sem :=
  repeat match goal with
         | H : exists _, _ |- _ => destruct H
         | H : _ /\ _ |- _ => destruct H
         | H : _ \/ _ |- _ => destruct H
         end.

(* a string that parses under the key format ends in a digit of %f *)
Lemma strptime_key_format_last (s : str) (d : datetime) :
  strptime s key_format = Some d ->
  exists t c, s = t ++ [c] /\ range "0" "9" c = true.
Proof.
  unfold strptime.
  destruct (parse_format key_format) as [items|] eqn:E; [|done].
  vm_compute in E. injection E as <-.
  match goal with
  | |- context [re_match true ?r s] =>
      destruct (re_match true r s) as [[rest found]|] eqn:M; [|done]
  end.
  destruct rest; [|done]. intros _.
  apply re_match_sound in M.
  cbn [format_regex item_regex directive_regex sem] in M.
  break_sem; subst;
    match goal with
    | Hall : Forall _ ?cs, Hlen : (1 <= length ?cs)%nat |- _ =>
        destruct (nonempty_last cs Hlen) as (t & c & ->);
        apply Forall_app in Hall as [_ Hc];
        apply Forall_cons in Hc as [Hc _]
    end;
    rewrite app_nil_r; eexists; exists c; (split; [|exact Hc]);
    repeat rewrite app_comm_cons; reflexivity.
Qed.

Lemma key_parse_last (s3_key : str) (d : datetime) :
  strptime (strip (lit ".tar") s3_key) key_format = Some d ->
  forall t c, s3_key = t ++ [c] -> mem_ch c (lit ".tar") = false ->
  range "0" "9" c = true.
Proof.
  intros H t c -> Hc.
  destruct (strip_keeps_last (lit ".tar") t c Hc) as [t' Ht'].
  rewrite Ht' in H. apply strptime_key_format_last in H as (t2 & c2 & Heq & Hd).
  apply app_inj_tail in Heq as [_ ->]. exact Hd.
Qed.

Lemma key_ending_unparseable (s3_key t : str) (c : ascii) (suf : str) :
  s3_key = t ++ suf ++ [c] ->
  mem_ch c (lit ".tar") = false -> range "0" "9" c = false ->
  strptime (strip (lit ".tar") s3_key) key_format = None.
Proof.
  intros -> Hc Hd.
  destruct (strptime _ key_format) as [d|] eqn:E; [|done].
  rewrite app_assoc in E.
  pose proof (key_parse_last _ d E _ c eq_refl Hc) as Hd'. congruence.
Qed.

Lemma process_item_forwarded (cutoff : datetime) (s3_key : str) (w : world) :
  process_item cutoff s3_key w =
  if forwarded cutoff s3_key
  then (print (lit "Processing file: " ++ s3_key) ;;
        download_and_extract_images s3_key IMAGE_SAVE_DIR)%py w
  else (Returns tt, w).
Proof.
  unfold process_item, forwarded.
  destruct (strptime _ key_format) as [d|]; [|done].
  destruct (le (date 2023 9 19) d && le d cutoff); simpl; [|done].
  destruct (re_search false archive_suffix s3_key) as [m|]; done.
Qed.

(* what the suffix pattern accepts *)
Lemma archive_suffix_sound (s3_key : str) (m : str * captures) :
  re_search false archive_suffix s3_key = Some m ->
  exists pre suf tail, s3_key = pre ++ suf ++ tail /\
    (suf = lit ".tar.gz" \/ suf = lit ".tar" \/ suf = lit ".zip") /\
    (tail = [] \/ tail = [chr 10]).
Proof.
  intros H. apply re_search_sound in H as (pre & s' & -> & H).
  destruct m as [rest caps]. simpl fst in H.
  unfold archive_suffix in H.
  cbn [sem lits lit list_ascii_of_string lit_matches] in H.
  assert (Htail : forall tl, at_dollar tl = true -> tl = [] \/ tl = [chr 10]).
  { intros [|c [|c' tl]] Hd; simpl in Hd; try done; [by left|].
    apply ch_eqb_true in Hd as ->. by right. }
  break_sem; subst;
    repeat match goal with
           | H : ch_eqb _ _ = true |- _ => apply ch_eqb_true in H; subst
           end;
    exists pre;
    match goal with
    | Hd : at_dollar ?tl = true |- _ => apply Htail in Hd
    end.
  - eexists (lit ".tar.gz"), _. split; [reflexivity|]. split; [by left|]. done.
  - eexists (lit ".tar"), _. split; [reflexivity|]. split; [by right; left|]. done.
  - eexists (lit ".zip"), _. split; [reflexivity|]. split; [by right; right|]. done.
Qed.

End ListerFacts.

(** ** The fetcher and its handler *)

Module FetcherFacts.
Import Py Re Datetime Sys Crawler PyFacts.

Lemma try_except_returns {A} (m : M A) (h : exn -> M A) (w w' : world) (a : A) :
  m w = (Returns a, w') -> try_except m h w = (Returns a, w').
Proof. unfold try_except. by intros ->. Qed.

Lemma try_except_raises {A} (m : M A) (h : exn -> M A) (w w' : world) (e : exn) :
  m w = (Raises e, w') -> try_except m h w = h e w'.
Proof. unfold try_except. by intros ->. Qed.

Lemma bind_returns {A B} (m : M A) (f : A -> M B) (w w' : world) (a : A) :
  m w = (Returns a, w') -> bind m f w = f a w'.
Proof. unfold bind. by intros ->. Qed.

Lemma bind_raises {A B} (m : M A) (f : A -> M B) (w w' : world) (e : exn) :
  m w = (Raises e, w') -> bind m f w = (Raises e, w').
Proof. unfold bind. by intros ->. Qed.

(* a handler that only prints turns every outcome into a normal return *)
Lemma handled_returns (m : M unit) (line : exn -> str) (w : world) :
  exists w', try_except m (fun e => print (line e)) w = (Returns tt, w').
Proof.
  unfold try_except. destruct (m w) as [[[]|e] w']; [by exists w'|].
  unfold print. eauto.
Qed.

Lemma download_and_extract_images_returns (s3_key save_dir : str) (w : world) :
  exists w', download_and_extract_images s3_key save_dir w = (Returns tt, w').
Proof. apply handled_returns. Qed.

Lemma extract_images_from_gz_returns (gz_path save_dir : str) (w : world) :
  exists w', extract_images_from_gz gz_path save_dir w = (Returns tt, w').
Proof. apply handled_returns. Qed.

Lemma process_item_returns (cutoff : datetime) (s3_key : str) (w : world) :
  exists w', process_item cutoff s3_key w = (Returns tt, w').
Proof.
  unfold process_item.
  destruct (strptime _ key_format) as [d|]; [|by exists w].
  destruct (le (date 2023 9 19) d && le d cutoff); [|by exists w].
  destruct (re_search false archive_suffix s3_key); [|by exists w].
  unfold bind, print. apply download_and_extract_images_returns.
Qed.

(* the download, when the environment lets it through *)
Lemma fetch_succeeds (s3_key save_dir : str) (w : world) (b : blob) :
  bucket w !! s3_key = Some b ->
  faults w (clock w) = None ->
  faults w (S (clock w)) = None ->
  exists w', fetch s3_key save_dir w = (Returns tt, w') /\
    stdout w' = stdout w ++ [lit "Downloaded: " ++ s3_key] /\
    fs w' = <[local_path_of s3_key save_dir := b]> (fs w) /\
    bucket w' = bucket w /\ faults w' = faults w /\ entropy w' = entropy w /\
    drawn w' = drawn w /\
    (clock w < clock w' <= clock w + 2)%nat.
Proof.
  intros Hb F0 F1. unfold fetch, bind, path_exists.
  destruct (bool_decide (save_dir ∈ dirs w) || bool_decide (is_Some (fs w !! save_dir)))
    eqn:Hex; simpl.
  - unfold download_file, syscall. rewrite F0. simpl. rewrite Hb.
    eexists. split; [reflexivity|]. simpl. repeat split; lia.
  - unfold makedirs, syscall. rewrite F0. simpl. rewrite Hex.
    unfold download_file, syscall. simpl. rewrite F1. simpl. rewrite Hb.
    eexists. split; [reflexivity|]. simpl. repeat split; lia.
Qed.

End FetcherFacts.

(** ** File names *)

Module NamingFacts.
Import Py Re Datetime Sys Crawler PyFacts.

Lemma rfind_from_spec (c : ascii) (s : str) :
  forall (i found : Z),
  (Forall (fun x => x <> c) s /\ rfind_from c s i found = found) \/
  (exists s1 s2, s = s1 ++ c :: s2 /\ Forall (fun x => x <> c) s2 /\
                 rfind_from c s i found = i + Z.of_nat (length s1)).
Proof.
  induction s as [|x s IH]; intros i found; simpl.
  - left. by split.
  - destruct (IH (i + 1) (if ch_eqb x c then i else found))
      as [[Hno Hr]|(s1 & s2 & -> & Hno & Hr)].
    + destruct (ch_eqb x c) eqn:E.
      * apply ch_eqb_true in E as ->. right. exists [], s. simpl.
        repeat split; auto. lia.
      * apply ch_eqb_false in E. left. split; [by constructor|done].
    + right. exists (x :: s1), s2. simpl. repeat split; auto. lia.
Qed.

Lemma rfind_lower_bound (c : ascii) (s : str) : -1 <= rfind c s.
Proof.
  unfold rfind.
  destruct (rfind_from_spec c s 0 (-1)) as [[_ ->]|(s1 & s2 & _ & _ & ->)]; lia.
Qed.

(* the extension is empty, or it is the text from the last dot on *)
Lemma splitext_spec (p a b : str) :
  splitext p = (a, b) ->
  p = a ++ b /\
  (b = [] \/ exists e, b = "."%char :: e /\ Forall (fun x => x <> "."%char) e).
Proof.
  unfold splitext.
  destruct ((rfind "/" p <? rfind "." p) &&
            splitext_scan p (S (length p)) (rfind "/" p + 1) (rfind "." p)) eqn:C.
  - apply andb_true_iff in C as [Hlt _]. apply Z.ltb_lt in Hlt.
    pose proof (rfind_lower_bound "/" p) as Hsep.
    unfold rfind in Hlt |- *.
    destruct (rfind_from_spec "." p 0 (-1)) as [[_ Hr]|(s1 & s2 & -> & Hno & Hr)].
    + unfold rfind in Hsep. lia.
    + rewrite Hr. unfold slice_to, slice_from.
      replace (Z.to_nat (0 + Z.of_nat (length s1))) with (length s1) by lia.
      rewrite take_app_length, drop_app_length.
      intros [= <- <-]. split; [done|]. right. by exists s2.
  - intros [= <- <-]. rewrite app_nil_r. split; [done|by left].
Qed.

Lemma basename_aux_noslash (s : str) :
  forall acc, Forall (fun x => x <> "/"%char) acc ->
              Forall (fun x => x <> "/"%char) (basename_aux s acc).
Proof.
  induction s as [|c s IH]; intros acc Hacc; simpl; [done|].
  destruct (ch_eqb c "/") eqn:E.
  - apply IH. constructor.
  - apply IH. apply Forall_app. split; [done|].
    constructor; [by apply ch_eqb_false|constructor].
Qed.

Lemma basename_noslash (p : str) : Forall (fun x => x <> "/"%char) (basename p).
Proof. apply basename_aux_noslash. constructor. Qed.

Lemma basename_aux_free (t : str) :
  forall acc, Forall (fun x => x <> "/"%char) t -> basename_aux t acc = acc ++ t.
Proof.
  induction t as [|c t IH]; intros acc Ht; simpl; [by rewrite app_nil_r|].
  apply Forall_cons in Ht as [Hc Ht]. apply ch_eqb_false in Hc. rewrite Hc.
  rewrite IH by done. by rewrite <- app_assoc.
Qed.

Lemma basename_aux_app (q t : str) :
  forall acc, Forall (fun x => x <> "/"%char) t ->
              basename_aux (q ++ t) acc = basename_aux q acc ++ t.
Proof.
  induction q as [|c q IH]; intros acc Ht; simpl.
  - by apply basename_aux_free.
  - destruct (ch_eqb c "/"); by apply IH.
Qed.

(* a tail without slashes survives basename *)
Lemma basename_app (q t : str) :
  Forall (fun x => x <> "/"%char) t -> basename (q ++ t) = basename q ++ t.
Proof. apply basename_aux_app. Qed.

Lemma basename_aux_slash (q : str) :
  forall acc, basename_aux (q ++ ["/"%char]) acc = [].
Proof.
  induction q as [|c q IH]; intros acc; simpl; [done|].
  destruct (ch_eqb c "/"); apply IH.
Qed.

(* the last component of join d f is f, when f has no slash *)
Lemma basename_join (d f : str) :
  Forall (fun x => x <> "/"%char) f -> basename (join d f) = f.
Proof.
  intros Hf. unfold join.
  assert (Hs : startswith f (lit "/") = false).
  { destruct f as [|c f]; simpl; [done|].
    apply Forall_cons in Hf as [Hc _]. apply ch_eqb_false in Hc.
    by rewrite Hc. }
  rewrite Hs.
  assert (Hsl : forall t : str, basename (t ++ lit "/") = []).
  { intros t. unfold basename, lit. simpl list_ascii_of_string.
    apply basename_aux_slash. }
  destruct ((match d with [] => true | _ => false end) || endswith d (lit "/")) eqn:C.
  - destruct d as [|x d].
    + simpl. unfold basename. by rewrite basename_aux_free.
    + simpl in C. apply endswith_inv in C as [t ->].
      rewrite basename_app by done. by rewrite Hsl.
  - rewrite app_assoc. rewrite basename_app by done. by rewrite Hsl.
Qed.

(* the decomposition of a string at the last occurrence of a character *)
Lemma last_occurrence_unique (c : ascii) (a a' e e' : str) :
  Forall (fun x => x <> c) e -> Forall (fun x => x <> c) e' ->
  a ++ c :: e = a' ++ c :: e' -> a = a' /\ e = e'.
Proof.
  intros He He' Heq.
  assert (Hrev : rev e ++ c :: rev a = rev e' ++ c :: rev a').
  { apply (f_equal (@rev ascii)) in Heq.
    rewrite !rev_app_distr in Heq. simpl in Heq.
    by rewrite <- !app_assoc in Heq. }
  assert (Hgen : forall l l' k k' : str,
             Forall (fun x => x <> c) l -> Forall (fun x => x <> c) l' ->
             l ++ c :: k = l' ++ c :: k' -> l = l' /\ k = k').
  { clear. induction l as [|y l IH]; intros [|y' l'] k k' Hl Hl' H; simpl in H.
    - by injection H as ->.
    - injection H as <- _. apply Forall_cons in Hl' as [Hy _]. done.
    - injection H as -> _. apply Forall_cons in Hl as [Hy _]. done.
    - injection H as -> H. apply Forall_cons in Hl as [_ Hl].
      apply Forall_cons in Hl' as [_ Hl'].
      destruct (IH _ _ _ Hl Hl' H) as [-> ->]. done. }
  assert (Hr : forall l : str, Forall (fun x => x <> c) l -> Forall (fun x => x <> c) (rev l)).
  { intros l Hl. apply List.Forall_forall. intros y Hy. apply in_rev in Hy.
    revert y Hy. by apply List.Forall_forall. }
  destruct (Hgen _ _ _ _ (Hr _ He) (Hr _ He') Hrev) as [H1 H2].
  split.
  - apply (f_equal (@rev ascii)) in H2. by rewrite !rev_involutive in H2.
  - apply (f_equal (@rev ascii)) in H1. by rewrite !rev_involutive in H1.
Qed.

End NamingFacts.

(** ** Random identifiers *)

Module UuidFacts.
Import Py Re Datetime Sys Crawler PyFacts.

Lemma code_chr (z : Z) : 0 <= z < 256 -> code (chr z) = z.
Proof.
  intros Hz. unfold code, chr. rewrite N_ascii_embedding; lia.
Qed.

Lemma code_hex_digit (k : Z) :
  0 <= k < 16 -> code (hex_digit k) = if k <? 10 then 48 + k else 87 + k.
Proof.
  intros Hk. unfold hex_digit. destruct (k <? 10) eqn:E; apply code_chr; lia.
Qed.

(* the characters of a hexadecimal rendering *)
Lemma hex_digit_code_range (k : Z) :
  0 <= k < 16 -> 48 <= code (hex_digit k) <= 102.
Proof.
  intros Hk. rewrite code_hex_digit by done. destruct (k <? 10) eqn:E; lia.
Qed.

Lemma hex_digit_inj (a b : Z) :
  0 <= a < 16 -> 0 <= b < 16 -> hex_digit a = hex_digit b -> a = b.
Proof.
  intros Ha Hb H. apply (f_equal code) in H.
  rewrite !code_hex_digit in H by done.
  destruct (a <? 10) eqn:Ea, (b <? 10) eqn:Eb; lia.
Qed.

Lemma hex_fixed_length (w : nat) (n : Z) : length (hex_fixed w n) = w.
Proof.
  revert n. induction w as [|w IH]; intros n; simpl; [done|].
  rewrite length_app, IH. simpl. lia.
Qed.

Lemma hex_fixed_chars (w : nat) (n : Z) :
  Forall (fun c => 48 <= code c <= 102) (hex_fixed w n).
Proof.
  revert n. induction w as [|w IH]; intros n; simpl; [constructor|].
  apply Forall_app. split; [apply IH|].
  constructor; [|constructor]. apply hex_digit_code_range.
  apply Z.mod_pos_bound. lia.
Qed.

Lemma hex_fixed_inj (w : nat) (a b : Z) :
  hex_fixed w a = hex_fixed w b -> a mod 16 ^ Z.of_nat w = b mod 16 ^ Z.of_nat w.
Proof.
  revert a b. induction w as [|w IH]; intros a b H.
  - simpl. by rewrite !Z.mod_1_r.
  - simpl in H. apply app_inj_tail in H as [Hhi Hlo].
    apply IH in Hhi.
    apply hex_digit_inj in Hlo; [|apply Z.mod_pos_bound; lia..].
    replace (16 ^ Z.of_nat (S w)) with (16 * 16 ^ Z.of_nat w)
      by (rewrite Nat2Z.inj_succ, Z.pow_succ_r; lia).
    rewrite !Z.rem_mul_r by lia. congruence.
Qed.

Lemma bits_lt_pow2 (a n m : Z) :
  0 <= a < 2 ^ n -> n <= m -> Z.testbit a m = false.
Proof.
  intros [Ha Hlt] Hm. destruct (Z.eq_dec a 0) as [->|Hne]; [apply Z.bits_0|].
  apply Z.bits_above_log2; [done|].
  assert (Z.log2 a < n) by (apply Z.log2_lt_pow2; lia). lia.
Qed.

Lemma lt_pow2_bits (a n : Z) :
  0 <= n -> 0 <= a -> (forall m, n <= m -> Z.testbit a m = false) -> a < 2 ^ n.
Proof.
  intros Hn Ha Hbits. destruct (Z.eq_dec a 0) as [->|Hne].
  - apply Z.pow_pos_nonneg; lia.
  - apply Z.log2_lt_pow2; [lia|].
    destruct (Z.lt_ge_cases (Z.log2 a) n) as [Hlt|Hge]; [done|].
    pose proof (Hbits _ Hge) as Hb. rewrite Z.bit_log2 in Hb by lia. discriminate.
Qed.

Lemma lor_range (a b n : Z) :
  0 <= n -> 0 <= a < 2 ^ n -> 0 <= b < 2 ^ n -> 0 <= Z.lor a b < 2 ^ n.
Proof.
  intros Hn Ha Hb.
  assert (Hnn : 0 <= Z.lor a b) by (apply Z.lor_nonneg; lia).
  split; [done|]. apply lt_pow2_bits; [done..|].
  intros m Hm. rewrite Z.lor_spec.
  by rewrite (bits_lt_pow2 a n m), (bits_lt_pow2 b n m).
Qed.

Lemma land_range (a b n : Z) :
  0 <= n -> 0 <= a < 2 ^ n -> 0 <= Z.land a b < 2 ^ n.
Proof.
  intros Hn Ha.
  assert (Hnn : 0 <= Z.land a b) by (apply Z.land_nonneg; lia).
  split; [done|]. apply lt_pow2_bits; [done..|].
  intros m Hm. rewrite Z.land_spec.
  by rewrite (bits_lt_pow2 a n m).
Qed.

Lemma uuid4_of_range (random : Z) : 0 <= uuid4_of random < 2 ^ 128.
Proof.
  unfold uuid4_of.
  assert (Hv : 0 <= Z.shiftl 32768 48 < 2 ^ 128) by (split; by vm_compute).
  assert (Hw : 0 <= Z.shiftl 4 76 < 2 ^ 128) by (split; by vm_compute).
  set (n := 128) in *. assert (Hn : 0 <= n) by (subst n; lia). clearbody n.
  apply lor_range; [done| |done].
  apply land_range; [done|].
  apply lor_range; [done| |done].
  apply land_range; [done|].
  apply Z.mod_pos_bound. apply Z.pow_pos_nonneg; lia.
Qed.

Lemma chunks_of_hex (h : str) :
  h = take 8 h ++ take 4 (drop 8 h) ++ take 4 (drop 12 h) ++
      take 4 (drop 16 h) ++ drop 20 h.
Proof.
  rewrite <- (take_drop 8 h) at 1. f_equal.
  rewrite <- (take_drop 4 (drop 8 h)) at 1. f_equal.
  rewrite drop_drop. simpl Nat.add.
  rewrite <- (take_drop 4 (drop 12 h)) at 1. f_equal.
  rewrite drop_drop. simpl Nat.add.
  rewrite <- (take_drop 4 (drop 16 h)) at 1. f_equal.
  by rewrite drop_drop.
Qed.

Lemma uuid_str_length (u : Z) : length (uuid_str u) = 36%nat.
Proof.
  unfold uuid_str, lit. simpl list_ascii_of_string.
  repeat rewrite ?length_app, ?length_take, ?length_drop, ?hex_fixed_length.
  simpl. lia.
Qed.

Lemma uuid_str_chars (u : Z) : Forall (fun c => 45 <= code c <= 102 /\ code c <> 46 /\ code c <> 47) (uuid_str u).
Proof.
  assert (Hh : Forall (fun c => 45 <= code c <= 102 /\ code c <> 46 /\ code c <> 47)
                 (hex_fixed 32 u)).
  { eapply Forall_impl; [apply hex_fixed_chars|]. simpl. intros c Hc. lia. }
  unfold uuid_str, lit. simpl list_ascii_of_string.
  repeat (apply Forall_app; split);
    try (apply Forall_take; exact Hh);
    try (apply Forall_drop; exact Hh);
    try (apply Forall_take; apply Forall_drop; exact Hh);
    repeat constructor; by vm_compute.
Qed.

Lemma uuid_str_no_dot (u : Z) : Forall (fun c => c <> "."%char) (uuid_str u).
Proof.
  eapply Forall_impl; [apply uuid_str_chars|]. simpl.
  intros c (_ & Hc & _) ->. by apply Hc.
Qed.

Lemma uuid_str_no_slash (u : Z) : Forall (fun c => c <> "/"%char) (uuid_str u).
Proof.
  eapply Forall_impl; [apply uuid_str_chars|]. simpl.
  intros c (_ & _ & Hc) ->. by apply Hc.
Qed.

Lemma uuid_str_inj (u1 u2 : Z) :
  0 <= u1 < 2 ^ 128 -> 0 <= u2 < 2 ^ 128 ->
  uuid_str u1 = uuid_str u2 -> u1 = u2.
Proof.
  intros H1 H2 H. unfold uuid_str in H.
  assert (L1 := hex_fixed_length 32 u1). assert (L2 := hex_fixed_length 32 u2).
  set (h1 := hex_fixed 32 u1) in *. set (h2 := hex_fixed 32 u2) in *.
  apply app_inj_1 in H as [Ha H]; [|rewrite !length_take; lia].
  apply app_inj_2 in H as [_ H]; [|done].
  apply app_inj_1 in H as [Hb H]; [|rewrite !length_take, !length_drop; lia].
  apply app_inj_2 in H as [_ H]; [|done].
  apply app_inj_1 in H as [Hc H]; [|rewrite !length_take, !length_drop; lia].
  apply app_inj_2 in H as [_ H]; [|done].
  apply app_inj_1 in H as [Hd H]; [|rewrite !length_take, !length_drop; lia].
  apply app_inj_2 in H as [_ He]; [|done].
  assert (Hh : h1 = h2).
  { rewrite (chunks_of_hex h1), (chunks_of_hex h2). congruence. }
  apply hex_fixed_inj in Hh.
  change (16 ^ Z.of_nat 32) with (2 ^ 128) in Hh.
  by rewrite !Z.mod_small in Hh.
Qed.

End UuidFacts.

(** ** Image members and their output names *)

Module ImageFacts.
Import Py Re Datetime Sys Crawler PyFacts NamingFacts UuidFacts.

Lemma lower_ch_dot (x : ascii) : lower_ch x = "."%char -> x = "."%char.
Proof.
  destruct x as [[] [] [] [] [] [] [] []]; vm_compute; intros H;
    try reflexivity; discriminate H.
Qed.

Ltac not_special :=
  match goal with
  | H : lower_ch ?x = _ |- ?x <> _ =>
      let E := fresh in intros E; rewrite E in H; vm_compute in H; discriminate H
  end.

(* an image name ends in a dot followed by three or four letters *)
Lemma image_name_tail (n : str) :
  is_image_name n = true ->
  exists q r, n = q ++ "."%char :: r /\
    Forall (fun x => x <> "."%char) r /\
    Forall (fun x => x <> "/"%char) ("."%char :: r) /\
    (length r <= 4)%nat.
Proof.
  unfold is_image_name, SUPPORTED_IMAGE_FORMATS. simpl existsb.
  rewrite orb_false_r. intros H.
  repeat (apply orb_true_iff in H as [H|H]);
    apply endswith_inv in H as [t H]; unfold lower in H;
    apply map_eq_app in H as (q & n2 & -> & _ & H);
    unfold lit in H; simpl list_ascii_of_string in H;
    repeat (destruct n2 as [|? n2]; [discriminate H|]);
    (destruct n2; [|discriminate H]);
    simpl in H; injection H as H;
    match goal with
    | Hd : lower_ch ?d = "."%char |- _ => apply lower_ch_dot in Hd; subst d
    end;
    eexists q, _; (split; [reflexivity|]);
    repeat split; repeat constructor; try not_special; try done; simpl; lia.
Qed.

Lemma image_ext_short (n a b : str) :
  is_image_name n = true -> splitext (basename n) = (a, b) -> (length b <= 5)%nat.
Proof.
  intros Hn Hs. apply image_name_tail in Hn as (q & r & -> & Hdot & Hsl & Hlen).
  rewrite basename_app in Hs by done.
  apply splitext_spec in Hs as [Heq [->|(e & -> & He)]]; [simpl; lia|].
  apply last_occurrence_unique in Heq as [_ ->]; [simpl; lia|done..].
Qed.

(* the generated name has no slash *)
Lemma unique_filename_noslash (n : str) (u : Z) :
  Forall (fun x => x <> "/"%char) (unique_filename (basename n) u).
Proof.
  unfold unique_filename. destruct (splitext (basename n)) as [a b] eqn:E.
  apply splitext_spec in E as [Heq _].
  pose proof (basename_noslash n) as Hb. rewrite Heq in Hb.
  apply Forall_app in Hb as [Ha Hb].
  apply Forall_app; split; [done|].
  apply Forall_app; split; [by repeat constructor|].
  apply Forall_app; split; [apply uuid_str_no_slash|done].
Qed.

(* two generated names with different identifiers differ *)
Lemma unique_filename_inj (n1 n2 : str) (u1 u2 : Z) :
  is_image_name n1 = true -> is_image_name n2 = true ->
  0 <= u1 < 2 ^ 128 -> 0 <= u2 < 2 ^ 128 ->
  unique_filename (basename n1) u1 = unique_filename (basename n2) u2 ->
  u1 = u2.
Proof.
  intros I1 I2 R1 R2. unfold unique_filename.
  destruct (splitext (basename n1)) as [a1 e1] eqn:E1.
  destruct (splitext (basename n2)) as [a2 e2] eqn:E2.
  pose proof (image_ext_short _ _ _ I1 E1) as L1.
  pose proof (image_ext_short _ _ _ I2 E2) as L2.
  apply splitext_spec in E1 as [_ S1]. apply splitext_spec in E2 as [_ S2].
  pose proof (uuid_str_length u1) as Len1. pose proof (uuid_str_length u2) as Len2.
  pose proof (uuid_str_no_dot u1) as D1. pose proof (uuid_str_no_dot u2) as D2.
  intros H.
  assert (Hcore : forall (b1 b2 : str) (x1 x2 : Z),
             0 <= x1 < 2 ^ 128 -> 0 <= x2 < 2 ^ 128 ->
             b1 ++ lit "_" ++ uuid_str x1 = b2 ++ lit "_" ++ uuid_str x2 -> x1 = x2).
  { intros b1 b2 x1 x2 Hx1 Hx2 Hb. rewrite !app_assoc in Hb.
    apply app_inj_2 in Hb as [_ Hb]; [|by rewrite !uuid_str_length].
    by apply uuid_str_inj. }
  assert (Hmix : forall (b1 b2 e : str) (x1 x2 : Z),
             (length e <= 4)%nat ->
             b1 ++ lit "_" ++ uuid_str x1 ++ [] =
             b2 ++ lit "_" ++ uuid_str x2 ++ "."%char :: e -> False).
  { intros b1 b2 e x1 x2 Hlen Hb. rewrite app_nil_r in Hb.
    rewrite (app_assoc b1), (app_assoc b2), (app_assoc (b2 ++ _)) in Hb.
    apply app_eq_inv in Hb as [(k & _ & Hk)|(k & _ & Hk)].
    - apply (f_equal (@length ascii)) in Hk.
      rewrite length_app, uuid_str_length in Hk. simpl in Hk. lia.
    - pose proof (uuid_str_no_dot x1) as Hd. rewrite Hk in Hd.
      apply Forall_app in Hd as [_ Hd]. apply Forall_cons in Hd as [Hd _]. done. }
  destruct S1 as [->|(r1 & -> & Hr1)], S2 as [->|(r2 & -> & Hr2)].
  - rewrite !app_nil_r in H. by eapply Hcore.
  - exfalso. eapply Hmix; [|exact H]. simpl in L2. lia.
  - exfalso. eapply Hmix; [|symmetry; exact H]. simpl in L1. lia.
  - rewrite (app_assoc a1), (app_assoc (a1 ++ _)),
            (app_assoc a2), (app_assoc (a2 ++ _)) in H.
    apply last_occurrence_unique in H as [H _]; [|done..].
    rewrite <- !app_assoc in H. by eapply Hcore.
Qed.

End ImageFacts.

(** ** The archive walker *)

Module WalkerFacts.
Import Py Re Datetime Sys Crawler PyFacts FetcherFacts.

Lemma bind_ext {A B} (m : M A) (f g : A -> M B) (w : world) :
  (forall a w', f a w' = g a w') -> bind m f w = bind m g w.
Proof. intros H. unfold bind. destruct (m w) as [[a|e] w']; [apply H|done]. Qed.

(* the three branches of the loop body *)
Lemma extract_member_eq (save_dir : str) (m : member) (w : world) :
  extract_member save_dir m w =
  (if isfile m && is_image_name (name m) then
     if size m <=? MAX_FILE_SIZE then save_image save_dir m else ret tt
   else if isfile m && is_gz_name (name m) then recurse_into_gz save_dir m
   else ret tt) w.
Proof.
  destruct m as [n sz ty d]. cbn [extract_member name size data].
  destruct (isfile (Member n sz ty d) && is_image_name n); [reflexivity|].
  destruct (isfile (Member n sz ty d) && is_gz_name n); [|reflexivity].
  unfold recurse_into_gz. cbn [name size data].
  apply bind_ext. intros gz_file_path w1.
  apply bind_ext. intros _ w2.
  apply bind_ext. intros file w3.
  apply bind_ext. intros content w4.
  apply bind_ext. intros _ w6.
  apply bind_ext. intros _ w5.
  destruct d as [bytes|ms|c inner]; try reflexivity.
  destruct c; try reflexivity.
  destruct inner as [bytes|nested|c' inner']; try reflexivity.
  cbn [tar_gz tar_members].
  unfold extract_images_from_archive, bind, getmembers, syscall, ret.
  destruct (faults w5 (clock w5)); reflexivity.
Qed.

(* the copy of an image, when the environment lets the four calls through *)
Lemma save_image_writes (save_dir : str) (m : member) (w : world) :
  faults w (clock w) = None ->
  faults w (S (clock w)) = None ->
  faults w (S (S (clock w))) = None ->
  faults w (S (S (S (clock w)))) = None ->
  let save_path :=
    join save_dir (unique_filename (basename (name m)) (uuid4_of (entropy w (drawn w)))) in
  exists w', save_image save_dir m w = (Returns tt, w') /\
    fs w' = <[save_path := data m]> (fs w) /\
    stdout w' = stdout w ++ [lit "Extracted image: " ++ save_path].
Proof.
  intros F0 F1 F2 F3 save_path.
  unfold save_image, generate_unique_filename, bind, uuid4, ret, open_wb,
    extractfile, read, write, print, syscall. simpl.
  rewrite F0. simpl. rewrite F1. simpl. rewrite F2. simpl. rewrite F3. simpl.
  eexists. split; [reflexivity|]. simpl. split; [|done].
  apply insert_insert_eq.
Qed.

End WalkerFacts.

(** * The claims of the specification *)

Import Py Re Datetime Sys Crawler Scenarios.
Import PyFacts ReFacts ListerFacts FetcherFacts NamingFacts UuidFacts ImageFacts WalkerFacts.

(** ** Catalog lister *)

(** C1, as the specification states it, fails: with the cutoff of the main
    block the key src/arXiv_src_2309_001.tar is not forwarded. *)
Lemma C1_key_2309_not_accepted :
  ~ (forwarded main_cutoff (lit "src/arXiv_src_2309_001.tar") = true /\
     forwarded main_cutoff (lit "src/arXiv_src_2209_001.tar") = false).
Proof. intros [H _]. vm_compute in H. discriminate H. Qed.

(** C1 (amended): with the cutoff datetime(2024,1,1) the key
    src/arXiv_src_2309_001.tar parses to September 2023, that is to
    2023-09-01 00:00:00.001000, which lies before the closed lower bound
    datetime(2023,9,19); it is outside the window and is not forwarded to the
    fetcher, and processing it changes nothing.  The key
    src/arXiv_src_2209_001.tar parses to September 2022 and is rejected as
    well. *)
Theorem C1_default_window :
  strptime (strip (lit ".tar") (lit "src/arXiv_src_2309_001.tar")) key_format
    = Some (mk_datetime 2023 9 1 0 0 0 1000) /\
  le (date 2023 9 19) (mk_datetime 2023 9 1 0 0 0 1000) = false /\
  forwarded main_cutoff (lit "src/arXiv_src_2309_001.tar") = false /\
  (forall w, process_item main_cutoff (lit "src/arXiv_src_2309_001.tar") w = (Returns tt, w)) /\
  strptime (strip (lit ".tar") (lit "src/arXiv_src_2209_001.tar")) key_format
    = Some (mk_datetime 2022 9 1 0 0 0 1000) /\
  forwarded main_cutoff (lit "src/arXiv_src_2209_001.tar") = false /\
  (forall w, process_item main_cutoff (lit "src/arXiv_src_2209_001.tar") w = (Returns tt, w)).
Proof.
  assert (F1 : forwarded main_cutoff (lit "src/arXiv_src_2309_001.tar") = false)
    by (vm_compute; reflexivity).
  assert (F2 : forwarded main_cutoff (lit "src/arXiv_src_2209_001.tar") = false)
    by (vm_compute; reflexivity).
  split; [vm_compute; reflexivity|].
  split; [vm_compute; reflexivity|].
  split; [exact F1|].
  split; [intros w; by rewrite process_item_forwarded, F1|].
  split; [vm_compute; reflexivity|].
  split; [exact F2|].
  intros w. by rewrite process_item_forwarded, F2.
Qed.

(* the first month whose keys pass the window of the main block *)
Example key_2310_forwarded :
  forwarded main_cutoff (lit "src/arXiv_src_2310_001.tar") = true.
Proof. vm_compute. reflexivity. Qed.

(** C8: a listed key that does not parse under the date pattern is skipped:
    processing it returns normally and leaves the world as it was (nothing
    printed, downloaded or extracted), and the key is not forwarded. *)
Theorem C8_unparseable_key_skipped (cutoff : datetime) (s3_key : str) (w : world) :
  strptime (strip (lit ".tar") s3_key) key_format = None ->
  process_item cutoff s3_key w = (Returns tt, w) /\
  forwarded cutoff s3_key = false.
Proof.
  intros H. unfold process_item, forwarded. by rewrite H.
Qed.

Lemma C8_unparseable_key_skipped_witness :
  process_item main_cutoff (lit "src/arXiv_pdf_manifest.xml") empty_bucket_world
    = (Returns tt, empty_bucket_world) /\
  forwarded main_cutoff (lit "src/arXiv_pdf_manifest.xml") = false.
Proof.
  apply (C8_unparseable_key_skipped main_cutoff (lit "src/arXiv_pdf_manifest.xml")
           empty_bucket_world).
  vm_compute. reflexivity.
Defined.

(** C10: a key that ends in .tar.gz or in .zip never parses, because
    strip('.tar') removes characters of the set {., t, a, r} and leaves the
    final z or p in place, where the pattern wants a digit; such a key is
    skipped before the suffix pattern is looked at.  Hence every key that is
    forwarded ends in .tar. *)
Theorem C10_only_tar_keys_forwarded :
  (forall s3_key : str,
     endswith s3_key (lit ".tar.gz") = true \/ endswith s3_key (lit ".zip") = true ->
     strptime (strip (lit ".tar") s3_key) key_format = None /\
     forall cutoff w, process_item cutoff s3_key w = (Returns tt, w)) /\
  (forall (cutoff : datetime) (s3_key : str),
     forwarded cutoff s3_key = true -> endswith s3_key (lit ".tar") = true).
Proof.
  assert (Hgz : forall t : str,
             strptime (strip (lit ".tar") (t ++ lit ".tar.gz")) key_format = None).
  { intros t. by apply (key_ending_unparseable _ t "z" (lit ".tar.g")). }
  assert (Hzip : forall t : str,
             strptime (strip (lit ".tar") (t ++ lit ".zip")) key_format = None).
  { intros t. by apply (key_ending_unparseable _ t "p" (lit ".zi")). }
  split.
  - intros s3_key H.
    assert (Hnone : strptime (strip (lit ".tar") s3_key) key_format = None).
    { destruct H as [H|H]; apply endswith_inv in H as [t ->]; auto. }
    split; [exact Hnone|]. intros cutoff w.
    unfold process_item. by rewrite Hnone.
  - intros cutoff s3_key H. unfold forwarded in H.
    destruct (strptime (strip (lit ".tar") s3_key) key_format) as [d|] eqn:P;
      [|discriminate H].
    apply andb_true_iff in H as [_ H]. apply bool_decide_eq_true in H as [m Hm].
    apply archive_suffix_sound in Hm as (pre & suf & tail & -> & Hsuf & Htail).
    destruct Htail as [->| ->].
    + rewrite app_nil_r in *.
      destruct Hsuf as [->|[->| ->]].
      * by rewrite Hgz in P.
      * apply endswith_app.
      * by rewrite Hzip in P.
    + exfalso. rewrite app_assoc in P.
      pose proof (key_parse_last _ d P (pre ++ suf) (chr 10) eq_refl eq_refl) as Hd.
      vm_compute in Hd. discriminate Hd.
Qed.

Lemma C10_only_tar_keys_forwarded_witness :
  strptime (strip (lit ".tar") (lit "src/arXiv_src_2310_001.tar.gz")) key_format = None /\
  endswith (lit "src/arXiv_src_2310_001.tar") (lit ".tar") = true.
Proof.
  split.
  - apply (proj1 C10_only_tar_keys_forwarded (lit "src/arXiv_src_2310_001.tar.gz")).
    left. vm_compute. reflexivity.
  - apply (proj2 C10_only_tar_keys_forwarded main_cutoff (lit "src/arXiv_src_2310_001.tar")).
    vm_compute. reflexivity.
Defined.

(** ** Fetcher *)

(** C4: whatever exception the download or the extraction of a key raises,
    download_and_extract_images catches it, prints it together with the key
    and returns normally; the function never raises, and neither does the
    processing of one listed key, so the loop goes on to the next key. *)
Theorem C4_per_key_failure_is_caught (s3_key save_dir : str) (w : world) :
  (forall (e : exn) (w' : world),
     download_and_extract_body s3_key save_dir w = (Raises e, w') ->
     download_and_extract_images s3_key save_dir w =
       (Returns tt, set_stdout (fun out => out ++ [error_line s3_key e]) w')) /\
  (exists w', download_and_extract_images s3_key save_dir w = (Returns tt, w')) /\
  (forall cutoff, exists w', process_item cutoff s3_key w = (Returns tt, w')).
Proof.
  split; [|split].
  - intros e w' H. unfold download_and_extract_images.
    by rewrite (try_except_raises _ _ _ _ _ H).
  - apply download_and_extract_images_returns.
  - intros cutoff. apply process_item_returns.
Qed.

Lemma C4_per_key_failure_is_caught_witness :
  download_and_extract_images (lit "src/arXiv_src_2310_001.tar") IMAGE_SAVE_DIR
    empty_bucket_world =
  (Returns tt,
   set_stdout
     (fun out => out ++
        [error_line (lit "src/arXiv_src_2310_001.tar")
           (Exn "ClientError"
              (lit "An error occurred (404) when calling the HeadObject operation: Not Found"))])
     (tick (tick (set_dirs (fun d => {[IMAGE_SAVE_DIR]} ∪ d) empty_bucket_world)))).
Proof.
  apply (proj1 (C4_per_key_failure_is_caught (lit "src/arXiv_src_2310_001.tar")
                  IMAGE_SAVE_DIR empty_bucket_world)).
  vm_compute. reflexivity.
Defined.

(** C5: when the download succeeds and the name of the local file ends
    neither in .tar nor in .tar.gz, download_and_extract_images prints
    "Unsupported file format: <path>" after the download message, returns
    normally, and the downloaded file stays on disk. *)
Theorem C5_unsupported_format_left_in_place
    (s3_key save_dir : str) (w : world) (b : blob) :
  let local_path := local_path_of s3_key save_dir in
  endswith local_path (lit ".tar") = false ->
  endswith local_path (lit ".tar.gz") = false ->
  bucket w !! s3_key = Some b ->
  faults w (clock w) = None ->
  faults w (S (clock w)) = None ->
  exists w', download_and_extract_images s3_key save_dir w = (Returns tt, w') /\
    stdout w' = stdout w ++ [lit "Downloaded: " ++ s3_key;
                             lit "Unsupported file format: " ++ local_path] /\
    fs w' = <[local_path := b]> (fs w) /\
    fs w' !! local_path = Some b.
Proof.
  intros local_path E1 E2 Hb F0 F1.
  destruct (fetch_succeeds s3_key save_dir w b Hb F0 F1)
    as (w1 & Hf & Hout & Hfs & _).
  unfold download_and_extract_images, download_and_extract_body.
  fold local_path. rewrite E1, E2. simpl orb.
  eexists. split.
  - apply try_except_returns. rewrite (bind_returns _ _ _ _ _ Hf).
    unfold print. reflexivity.
  - simpl. rewrite Hout, Hfs, <- app_assoc. simpl.
    repeat split. apply lookup_insert_eq.
Qed.

Lemma C5_unsupported_format_left_in_place_witness :
  exists w', download_and_extract_images (lit "src/paper.zip") IMAGE_SAVE_DIR zip_world
               = (Returns tt, w') /\
    stdout w' = stdout zip_world ++
                [lit "Downloaded: " ++ lit "src/paper.zip";
                 lit "Unsupported file format: " ++
                   local_path_of (lit "src/paper.zip") IMAGE_SAVE_DIR] /\
    fs w' = <[local_path_of (lit "src/paper.zip") IMAGE_SAVE_DIR := Raw (lit "PK")]>
              (fs zip_world) /\
    fs w' !! local_path_of (lit "src/paper.zip") IMAGE_SAVE_DIR = Some (Raw (lit "PK")).
Proof.
  apply (C5_unsupported_format_left_in_place (lit "src/paper.zip") IMAGE_SAVE_DIR
           zip_world (Raw (lit "PK")));
    vm_compute; reflexivity.
Defined.

(** C7, as the specification states it, fails: in a run over two keys the
    environment makes the os.remove of the first downloaded archive raise
    PermissionError; the per-key function returns normally all the same, the
    error is printed with the key, and the run goes on to the second key. *)
Lemma C7_remove_failure_does_not_end_run :
  let lp := local_path_of (lit "src/arXiv_src_2310_001.tar") IMAGE_SAVE_DIR in
  let before := (fetch (lit "src/arXiv_src_2310_001.tar") IMAGE_SAVE_DIR ;;
                 extract_from_tar lp IMAGE_SAVE_DIR)%py one_key_world in
  let run := process_arxiv_files main_cutoff [Some two_keys] remove_fails_world in
  fst before = Returns tt /\
  fst (os_remove lp (snd before)) = Raises permission_error /\
  fst (download_and_extract_images (lit "src/arXiv_src_2310_001.tar") IMAGE_SAVE_DIR
         one_key_world) = Returns tt /\
  fst run = Returns tt /\
  stdout (snd run) =
    [lit "Processing file: src/arXiv_src_2310_001.tar";
     lit "Downloaded: src/arXiv_src_2310_001.tar";
     lit "Error downloading and extracting src/arXiv_src_2310_001.tar: [Errno 13] Permission denied";
     lit "Processing file: src/arXiv_src_2310_002.tar";
     lit "Downloaded: src/arXiv_src_2310_002.tar";
     lit "Deleted archive: ./arxiv_images/arXiv_src_2310_002.tar"].
Proof. vm_compute. repeat split. Qed.

(** C7 (amended): an exception raised by os.remove is caught.  The removal of
    the downloaded archive stands inside the try block of
    download_and_extract_images: when it raises, the handler prints the error
    with the key and the function returns normally.  The same holds for any
    exception that leaves the body, the removal of a temporary file of the
    outer walker included, and a removal that fails inside the inner walker is
    caught before that by the handler of extract_images_from_gz, which never
    raises. *)
Theorem C7_deletion_failure_is_caught :
  (forall (s3_key save_dir : str) (w w1 w2 : world) (e : exn),
     let local_path := local_path_of s3_key save_dir in
     endswith local_path (lit ".tar") || endswith local_path (lit ".tar.gz") = true ->
     (fetch s3_key save_dir ;; extract_from_tar local_path save_dir)%py w = (Returns tt, w1) ->
     path_exists local_path w1 = (Returns true, w1) ->
     os_remove local_path w1 = (Raises e, w2) ->
     download_and_extract_images s3_key save_dir w =
       (Returns tt, set_stdout (fun out => out ++ [error_line s3_key e]) w2)) /\
  (forall (s3_key save_dir : str) (w w' : world) (e : exn),
     download_and_extract_body s3_key save_dir w = (Raises e, w') ->
     download_and_extract_images s3_key save_dir w =
       (Returns tt, set_stdout (fun out => out ++ [error_line s3_key e]) w')) /\
  (forall (gz_path save_dir : str) (w : world),
     exists w', extract_images_from_gz gz_path save_dir w = (Returns tt, w')).
Proof.
  split; [|split].
  - intros s3_key save_dir w w1 w2 e local_path Hsup Hpre Hex Hrm.
    assert (Hbody : download_and_extract_body s3_key save_dir w = (Raises e, w2)).
    { unfold download_and_extract_body. fold local_path.
      unfold bind in Hpre |- *.
      destruct (fetch s3_key save_dir w) as [[[]|e0] w0]; [|discriminate Hpre].
      rewrite Hsup.
      destruct (extract_from_tar local_path save_dir w0) as [[[]|e1] w0'];
        [|discriminate Hpre].
      injection Hpre as ->.
      unfold delete_archive, bind. rewrite Hex, Hrm. reflexivity. }
    unfold download_and_extract_images.
    by rewrite (try_except_raises _ _ _ _ _ Hbody).
  - intros s3_key save_dir w w' e H. unfold download_and_extract_images.
    by rewrite (try_except_raises _ _ _ _ _ H).
  - intros. apply extract_images_from_gz_returns.
Qed.

Lemma C7_deletion_failure_is_caught_witness :
  download_and_extract_images (lit "src/arXiv_src_2310_001.tar") IMAGE_SAVE_DIR
    one_key_world =
  (Returns tt,
   set_stdout
     (fun out => out ++ [error_line (lit "src/arXiv_src_2310_001.tar") permission_error])
     (snd (os_remove (local_path_of (lit "src/arXiv_src_2310_001.tar") IMAGE_SAVE_DIR)
             (snd ((fetch (lit "src/arXiv_src_2310_001.tar") IMAGE_SAVE_DIR ;;
                    extract_from_tar
                      (local_path_of (lit "src/arXiv_src_2310_001.tar") IMAGE_SAVE_DIR)
                      IMAGE_SAVE_DIR)%py one_key_world))))).
Proof.
  apply (proj1 C7_deletion_failure_is_caught
           (lit "src/arXiv_src_2310_001.tar") IMAGE_SAVE_DIR one_key_world
           (snd ((fetch (lit "src/arXiv_src_2310_001.tar") IMAGE_SAVE_DIR ;;
                  extract_from_tar
                    (local_path_of (lit "src/arXiv_src_2310_001.tar") IMAGE_SAVE_DIR)
                    IMAGE_SAVE_DIR)%py one_key_world))
           _ permission_error);
    vm_compute; reflexivity.
Defined.

(** ** Configuration *)

(** C9, as the specification states it, fails: no environment variable
    decides the region that is passed to the storage client. *)
Lemma C9_region_not_from_environment :
  ~ (exists var : string, forall env : environ,
       getenv env var = Some (region_name (s3_resource env))).
Proof.
  intros [var H]. specialize (H ∅). unfold getenv in H.
  rewrite lookup_empty in H. discriminate H.
Qed.

(** C9 (amended): the program reads two storage-access values from the
    process environment, the access key AWS_ACCESS_KEY and the secret key
    AWS_SECRET_KEY, and passes them to the storage client as they are, absent
    ones included (as None); the region passed to the client is the constant
    us-east-1 written in the code, whatever the environment holds. *)
Theorem C9_credentials_from_environment (env : environ) :
  aws_access_key_id (s3_resource env) = env !! lit "AWS_ACCESS_KEY" /\
  aws_secret_access_key (s3_resource env) = env !! lit "AWS_SECRET_KEY" /\
  region_name (s3_resource env) = lit "us-east-1" /\
  s3_resource ∅ = mk_resource_args (lit "s3") None None (lit "us-east-1") /\
  region_name
    (s3_resource {[ lit "AWS_REGION" := lit "eu-west-1";
                    lit "AWS_DEFAULT_REGION" := lit "eu-west-1" ]}) = lit "us-east-1".
Proof. repeat split. Qed.

(** ** Image extractor and archive walker *)

(** C2: the image branch copies a member exactly when the member is a
    regular file, its lowered name ends in .png, .jpg, .jpeg or .gif and its
    reported size is at most 700 * 1024.  A member that passes is written
    under the generated path with its content, and the path is printed.  A
    member that fails the filter gets no output file: either nothing at all
    happens (no file, no message, no error), which covers every image name
    above the size cap, or, when the member is a regular file named .gz, it
    goes to the nested-archive branch whatever its size.  A reported size
    above the cap always fails the filter. *)
Theorem C2_image_filter (save_dir : str) (m : member) (w : world) :
  let save_path :=
    join save_dir (unique_filename (basename (name m)) (uuid4_of (entropy w (drawn w)))) in
  (qualifies m = true ->
   faults w (clock w) = None ->
   faults w (S (clock w)) = None ->
   faults w (S (S (clock w))) = None ->
   faults w (S (S (S (clock w)))) = None ->
   exists w', extract_member save_dir m w = (Returns tt, w') /\
     fs w' = <[save_path := data m]> (fs w) /\
     stdout w' = stdout w ++ [lit "Extracted image: " ++ save_path]) /\
  (qualifies m = false -> is_nested_candidate m = false ->
   extract_member save_dir m w = (Returns tt, w)) /\
  (qualifies m = false -> is_nested_candidate m = true ->
   extract_member save_dir m w = recurse_into_gz save_dir m w) /\
  (MAX_FILE_SIZE < size m ->
   qualifies m = false /\
   (is_image_name (name m) = true -> extract_member save_dir m w = (Returns tt, w))).
Proof.
  intros save_path. rewrite extract_member_eq.
  unfold qualifies, is_nested_candidate.
  destruct (isfile m && is_image_name (name m)) eqn:Hi;
    destruct (size m <=? MAX_FILE_SIZE) eqn:Hs;
    destruct (isfile m && is_gz_name (name m)) eqn:Hg; simpl;
    repeat split; intros; try done; try lia;
    try (by apply save_image_writes).
  all: try (apply Z.leb_le in Hs; lia).
  all: try (apply andb_false_iff in Hi as [Hi|Hi]; [|congruence];
            apply andb_true_iff in Hg as [Hg _]; congruence).
Qed.

Lemma C2_image_filter_witness :
  exists w', extract_member IMAGE_SAVE_DIR small_png (quiet_world ∅ ∅) = (Returns tt, w') /\
    fs w' = <[join IMAGE_SAVE_DIR
                (unique_filename (basename (name small_png)) (uuid4_of 0)) := data small_png]> ∅ /\
    stdout w' = [] ++ [lit "Extracted image: " ++
                  join IMAGE_SAVE_DIR
                    (unique_filename (basename (name small_png)) (uuid4_of 0))].
Proof.
  apply (proj1 (C2_image_filter IMAGE_SAVE_DIR small_png (quiet_world ∅ ∅)));
    vm_compute; reflexivity.
Defined.

(** C3, evaluated where it fails: the outer tar holds a paper whose source
    contains fig/diagram.eps.gz, a gzip-compressed figure that is not a tar.
    The inner walker writes it to a temporary file and tarfile.open raises
    before os.remove is reached; the error is caught further up, the walker
    returns normally, and the temporary file is still on disk. *)
Theorem C3_inner_temp_file_left_behind :
  let run := extract_from_tar (lit "./arxiv_images/arXiv_src_2310_001.tar")
               IMAGE_SAVE_DIR leak_world in
  let temp := join IMAGE_SAVE_DIR (unique_filename (lit "diagram.eps.gz") (uuid4_of 1)) in
  fst run = Returns tt /\
  temp = lit "./arxiv_images/diagram.eps_00000000-0000-4000-8000-000000000001.gz" /\
  fs leak_world !! temp = None /\
  fs (snd run) !! temp = Some (Comp Gzip (Raw (lit "%!PS-Adobe"))) /\
  fs (snd run) !! lit "./arxiv_images/2310.00001.gz" = None /\
  stdout (snd run) =
    [lit "Extracted image: ./arxiv_images/plot_00000000-0000-4000-8000-000000000000.png";
     lit "Error extracting ./arxiv_images/2310.00001.gz: invalid header"].
Proof. vm_compute. repeat split. Qed.

(* the round trip of the specification: one nested gzip-tar with a 10 KiB
   .png and an 800 KiB .jpg gives one output file and leaves no temporary
   file *)
Example roundtrip_one_output :
  let run := extract_from_tar (lit "./arxiv_images/in.tar") IMAGE_SAVE_DIR roundtrip_world in
  fst run = Returns tt /\
  map fst (map_to_list (fs (snd run))) =
    [lit "./arxiv_images/in.tar";
     lit "./arxiv_images/a_00000000-0000-4000-8000-000000000001.png"].
Proof. vm_compute. repeat split. Qed.

(** C6: generate_unique_filename returns the output directory joined with
    <stem>_<uuid><extension>, where stem and extension split the original
    name; the generated name has no slash and is the last component of the
    path, so the file lies directly in the output directory.  For two image
    members handled with different random identifiers the two paths differ,
    also when the base names are the same. *)
Theorem C6_output_names (save_dir : str) :
  (forall (original_name : str) (w : world),
     exists stem ext, splitext original_name = (stem, ext) /\
       generate_unique_filename save_dir original_name w =
         (Returns (join save_dir
                     (stem ++ lit "_" ++ uuid_str (uuid4_of (entropy w (drawn w))) ++ ext)),
          draw w)) /\
  (forall (m : member) (u : Z),
     let file_name := unique_filename (basename (name m)) u in
     Forall (fun c => c <> "/"%char) file_name /\
     basename (join save_dir file_name) = file_name) /\
  (forall (m1 m2 : member) (w1 w2 w1' w2' : world) (p1 p2 : str),
     is_image_name (name m1) = true ->
     is_image_name (name m2) = true ->
     generate_unique_filename save_dir (basename (name m1)) w1 = (Returns p1, w1') ->
     generate_unique_filename save_dir (basename (name m2)) w2 = (Returns p2, w2') ->
     uuid4_of (entropy w1 (drawn w1)) <> uuid4_of (entropy w2 (drawn w2)) ->
     p1 <> p2).
Proof.
  split; [|split].
  - intros original_name w.
    unfold generate_unique_filename, unique_filename, bind, uuid4, ret.
    destruct (splitext original_name) as [stem ext]. by exists stem, ext.
  - intros m u file_name.
    pose proof (unique_filename_noslash (name m) u) as Hns.
    split; [exact Hns|]. by apply basename_join.
  - intros m1 m2 w1 w2 w1' w2' p1 p2 I1 I2 G1 G2 Hne Heq.
    unfold generate_unique_filename, bind, uuid4, ret in G1, G2.
    injection G1 as <- _. injection G2 as <- _.
    apply (f_equal basename) in Heq.
    rewrite !basename_join in Heq by apply unique_filename_noslash.
    apply unique_filename_inj in Heq; try done; apply uuid4_of_range.
Qed.

Lemma C6_output_names_witness :
  join IMAGE_SAVE_DIR (unique_filename (lit "a.PNG") (uuid4_of 0)) <>
  join IMAGE_SAVE_DIR (unique_filename (lit "a.PNG") (uuid4_of 1)).
Proof.
  apply (proj2 (proj2 (C6_output_names IMAGE_SAVE_DIR)) small_png other_png
           (quiet_world ∅ ∅) next_draw_world
           (draw (quiet_world ∅ ∅)) (draw next_draw_world)).
  - vm_compute. reflexivity.
  - vm_compute. reflexivity.
  - vm_compute. reflexivity.
  - vm_compute. reflexivity.
  - vm_compute. intros H. discriminate H.
Defined.

(** * Further properties of the script *)

Import Notions.

(** ** More on the catalog lister *)

Module ListerMore.
Import Py Re Datetime Sys Crawler Notions PyFacts ReFacts ListerFacts UuidFacts.

Lemma ch_eqb_code (a b : ascii) : code a <> code b -> ch_eqb a b = false.
Proof. intros H. apply ch_eqb_false. intros ->. by apply H. Qed.

Lemma range_code (a b x : ascii) :
  range a b x = true <-> code a <= code x <= code b.
Proof.
  unfold range. rewrite andb_true_iff, !Z.leb_le. tauto.
Qed.

(* a decimal digit is none of the characters that strip('.tar') removes *)
Lemma digit_not_stripped (c : ascii) :
  range "0" "9" c = true -> mem_ch c (lit ".tar") = false.
Proof.
  intros H. apply range_code in H. change (code "0") with 48 in H.
  change (code "9") with 57 in H.
  unfold lit. simpl. rewrite !orb_false_r.
  rewrite !ch_eqb_code; [done|..];
    match goal with |- code c <> code ?x => change (code x) with (Z.of_N (N_of_ascii x)); simpl; lia end.
Qed.

Lemma lstrip_all (chars a s : str) :
  Forall (fun c => mem_ch c chars = true) a -> lstrip chars (a ++ s) = lstrip chars s.
Proof.
  induction 1 as [|c a Hc _ IH]; simpl; [done|]. by rewrite Hc.
Qed.

Lemma rstrip_all (chars s b : str) :
  Forall (fun c => mem_ch c chars = true) b -> rstrip chars (s ++ b) = rstrip chars s.
Proof.
  intros Hb. unfold rstrip. rewrite rev_app_distr. f_equal.
  apply lstrip_all. apply List.Forall_forall. intros y Hy. apply in_rev in Hy.
  revert y Hy. by apply List.Forall_forall.
Qed.

Lemma lstrip_nil_all (chars b : str) :
  Forall (fun c => mem_ch c chars = true) b -> lstrip chars b = [].
Proof. induction 1 as [|c b Hc _ IH]; simpl; [done|]. by rewrite Hc. Qed.

Lemma strip_right_padding (chars s b : str) :
  Forall (fun c => mem_ch c chars = true) b -> strip chars (s ++ b) = strip chars s.
Proof.
  intros Hb. unfold strip. induction s as [|c s IH]; simpl.
  - by rewrite lstrip_nil_all.
  - destruct (mem_ch c chars); [exact IH|].
    by rewrite app_comm_cons, rstrip_all.
Qed.

(* characters of the set at either end do not matter to strip *)
Lemma strip_padding (chars a s b : str) :
  Forall (fun c => mem_ch c chars = true) a ->
  Forall (fun c => mem_ch c chars = true) b ->
  strip chars (a ++ s ++ b) = strip chars s.
Proof.
  intros Ha Hb. rewrite <- (strip_right_padding chars s b Hb).
  unfold strip. by rewrite lstrip_all.
Qed.

(* the greedy repetition takes a whole run of matching characters when the
   input ends there *)
Lemma rrepeat_all {A} (p : ascii -> bool) (cs : str) :
  forall (lo hi : nat) (k : str -> option A) (a : A),
  Forall (fun x => p x = true) cs ->
  (lo <= length cs <= hi)%nat ->
  k [] = Some a ->
  rrepeat p lo hi cs k = Some a.
Proof.
  induction cs as [|x cs IH]; intros lo hi k a Hall Hlen Hk; simpl in Hlen.
  - assert (lo = 0%nat) as -> by lia. destruct hi; simpl; exact Hk.
  - apply Forall_cons in Hall as [Hx Hall].
    destruct hi as [|hi]; [lia|]. simpl. rewrite Hx.
    rewrite (IH (Nat.pred lo) hi k a); [by destruct lo|done|lia|done].
Qed.

Lemma re_search_finds (icase : bool) (r : regex) (pre s : str) (m : str * captures) :
  re_match icase r s = Some m -> is_Some (re_search icase r (pre ++ s)).
Proof.
  intros Hm. induction pre as [|x pre IH]; simpl.
  - destruct s; simpl; rewrite Hm; eauto.
  - destruct (re_match icase r (x :: pre ++ s)); eauto.
Qed.

Lemma int_digits_nonneg (s : str) :
  Forall (fun c => range "0" "9" c = true) s -> 0 <= int_digits s.
Proof.
  unfold int_digits. intros H.
  assert (G : forall acc, 0 <= acc ->
            0 <= fold_left (fun acc c => 10 * acc + (code c - 48)) s acc); [|by apply G].
  induction H as [|c s Hc _ IH]; intros acc Hacc; simpl; [done|].
  apply IH. apply range_code in Hc. change (code "0") with 48 in Hc. lia.
Qed.

End ListerMore.

Import ListerMore.

Lemma take_diff2 {A} (a b : A) (l : list A) :
  take (length (a :: b :: l) - length l) (a :: b :: l) = [a; b].
Proof.
  replace (length (a :: b :: l) - length l)%nat with 2%nat by (simpl; lia). done.
Qed.

Lemma key_regex_match (y1 y2 m1 m2 : ascii) (seq : str) :
  is_digit y1 = true -> is_digit y2 = true -> month_digits m1 m2 = true ->
  Forall (fun c => range "0" "9" c = true) seq -> (1 <= length seq <= 6)%nat ->
  re_match true (format_regex [FChar "s"; FChar "r"; FChar "c"; FChar "/"; FChar "a"; FChar "r"; FChar "X"; FChar "i"; FChar "v"; FChar "_"; FChar "s"; FChar "r"; FChar "c"; FChar "_"; FDir Dy; FDir Dm; FChar "_"; FDir Df]) (lit "src/arXiv_src_" ++ [y1; y2; m1; m2] ++ lit "_" ++ seq) = Some ([], [("f"%string, seq); ("m"%string, [m1; m2]); ("y"%string, [y1;y2])]).
Proof.
  intros Hy1 Hy2 Hm Hseq Hlen.
  unfold re_match. cbn -[rrepeat lit_matches range is_digit Nat.sub take length].
  change (lit_matches true ?c ?c) with true.
  cbn -[rrepeat lit_matches range is_digit Nat.sub take length].
  rewrite Hy1, Hy2.
  unfold month_digits in Hm. apply orb_true_iff in Hm as [Hm|Hm];
    apply andb_true_iff in Hm as [H1 H2]; apply ch_eqb_true in H1 as ->; rewrite H2.
  - replace (lit_matches true "1" "0") with false by reflexivity.
    replace (lit_matches true "0" "0") with true by reflexivity.
    erewrite (rrepeat_all (range "0" "9") seq 1 6); [|done|done|reflexivity].
    rewrite !take_diff2. simpl length. by rewrite Nat.sub_0_r, firstn_all.
  - replace (lit_matches true "1" "1") with true by reflexivity.
    erewrite (rrepeat_all (range "0" "9") seq 1 6); [|done|done|reflexivity].
    rewrite !take_diff2. simpl length. by rewrite Nat.sub_0_r, firstn_all.
Qed.

Lemma strip_arxiv_key (yymm seq' : str) (c : ascii) :
  range "0" "9" c = true ->
  strip (lit ".tar") (arxiv_key yymm (seq' ++ [c])) =
  lit "src/arXiv_src_" ++ yymm ++ lit "_" ++ seq' ++ [c].
Proof.
  intros Hc. unfold arxiv_key.
  replace (lit "src/arXiv_src_" ++ yymm ++ lit "_" ++ (seq' ++ [c]) ++ lit ".tar")
    with ((lit "src/arXiv_src_" ++ yymm ++ lit "_" ++ seq' ++ [c]) ++ lit ".tar")
    by (by rewrite <- !app_assoc).
  rewrite strip_right_padding by (repeat constructor).
  unfold strip.
  change (lstrip (lit ".tar") (lit "src/arXiv_src_" ++ ?x)) with (lit "src/arXiv_src_" ++ x).
  rewrite !app_assoc. apply rstrip_keeps_last. by apply digit_not_stripped.
Qed.

Lemma parse_key_format :
  parse_format key_format =
  Some [FChar "s"; FChar "r"; FChar "c"; FChar "/"; FChar "a"; FChar "r"; FChar "X";
        FChar "i"; FChar "v"; FChar "_"; FChar "s"; FChar "r"; FChar "c"; FChar "_";
        FDir Dy; FDir Dm; FChar "_"; FDir Df].
Proof. reflexivity. Qed.

Lemma wellformed_key_parses (y1 y2 m1 m2 : ascii) (seq : str) :
  is_digit y1 = true -> is_digit y2 = true -> month_digits m1 m2 = true ->
  Forall (fun c => range "0" "9" c = true) seq -> (1 <= length seq <= 6)%nat ->
  strptime (strip (lit ".tar") (arxiv_key [y1; y2; m1; m2] seq)) key_format =
  Some (mk_datetime (two_digit_year (int_digits [y1; y2])) (int_digits [m1; m2]) 1 0 0 0
                    (int_digits (pad_fraction seq))).
Proof.
  intros Hy1 Hy2 Hm Hseq Hlen.
  destruct (nonempty_last seq (proj1 Hlen)) as (seq' & c & ->).
  rewrite strip_arxiv_key
    by (apply Forall_app in Hseq as [_ Hc]; by apply Forall_cons in Hc as [Hc _]).
  unfold strptime. rewrite parse_key_format.
  change (lit "src/arXiv_src_" ++ [y1; y2; m1; m2] ++ lit "_" ++ seq' ++ [c])
    with (lit "src/arXiv_src_" ++ [y1; y2; m1; m2] ++ lit "_" ++ (seq' ++ [c])).
  rewrite key_regex_match by done. reflexivity.
Qed.

Lemma strptime_shape (s f : str) (d : datetime) :
  strptime s f = Some d ->
  day d = 1 /\ hour d = 0 /\ minute d = 0 /\ second d = 0.
Proof.
  unfold strptime. destruct (parse_format f); [|done].
  destruct (re_match true _ s) as [[[|] found]|]; try done.
  by intros [= <-].
Qed.

Lemma le_lower_bound (d : datetime) :
  day d = 1 ->
  le (date 2023 9 19) d = true ->
  2023 < year d \/ (year d = 2023 /\ 10 <= month d).
Proof.
  intros Hd. unfold le, date.
  cbn [lex_le fields year month day hour minute second microsecond]. rewrite Hd.
  repeat rewrite ?orb_true_iff, ?andb_true_iff, ?Z.ltb_lt, ?Z.eqb_eq. lia.
Qed.

Lemma month_value (m1 m2 : ascii) :
  month_digits m1 m2 = true -> 1 <= int_digits [m1; m2] <= 12.
Proof.
  unfold month_digits. intros H. apply orb_true_iff in H as [H|H];
    apply andb_true_iff in H as [H1 H2]; apply ch_eqb_true in H1 as ->;
    apply range_code in H2; unfold int_digits; simpl;
    change (code "0") with 48 in *; change (code "1") with 49 in *;
    change (code "2") with 50 in *; change (code "9") with 57 in *; lia.
Qed.

Lemma pad_fraction_digits (seq : str) :
  Forall (fun c => range "0" "9" c = true) seq ->
  Forall (fun c => range "0" "9" c = true) (pad_fraction seq).
Proof.
  intros H. unfold pad_fraction. apply Forall_app. split; [done|].
  apply List.Forall_forall. intros c Hc. apply repeat_spec in Hc as ->.
  reflexivity.
Qed.

Lemma arxiv_key_suffix (yymm seq : str) :
  is_Some (re_search false archive_suffix (arxiv_key yymm seq)).
Proof.
  unfold arxiv_key. rewrite !app_assoc.
  eapply re_search_finds. vm_compute. reflexivity.
Qed.

(** X3: with the cutoff of the main block, a well-formed key is forwarded
    exactly when its month is October, November or December 2023, or when it
    is January 2024 and its sequence digits are all zeros (a positive sequence
    number puts the date a fraction of a second after the cutoff). *)
Theorem X3_main_window_months (y1 y2 m1 m2 : ascii) (seq : str) :
  is_digit y1 = true -> is_digit y2 = true -> month_digits m1 m2 = true ->
  Forall (fun c => range "0" "9" c = true) seq -> (1 <= length seq <= 6)%nat ->
  let year := two_digit_year (int_digits [y1; y2]) in
  let month := int_digits [m1; m2] in
  forwarded main_cutoff (arxiv_key [y1; y2; m1; m2] seq) = true <->
  (year = 2023 /\ 10 <= month) \/
  (year = 2024 /\ month = 1 /\ int_digits (pad_fraction seq) = 0).
Proof.
  intros Hy1 Hy2 Hm Hseq Hlen year month.
  unfold forwarded. rewrite wellformed_key_parses by done. fold year month.
  pose proof (month_value m1 m2 Hm) as HM. fold month in HM.
  pose proof (int_digits_nonneg _ (pad_fraction_digits seq Hseq)) as HF.
  rewrite (bool_decide_eq_true_2 _ (arxiv_key_suffix _ _)), andb_true_r.
  unfold le, main_cutoff, date.
  cbn [lex_le fields Datetime.year Datetime.month day hour minute second microsecond].
  repeat rewrite ?orb_true_iff, ?andb_true_iff, ?Z.ltb_lt, ?Z.eqb_eq. lia.
Qed.

(** X1: a key of the form src/arXiv_src_<YYMM>_<seq>.tar, with two year
    digits, a month from 01 to 12 and one to six sequence digits, always
    parses: to the first day of that month at midnight, the year taken in
    1969-2068, and with the sequence digits, padded with zeros on the right to
    six places, as the microseconds. *)
Theorem X1_wellformed_key_parses (y1 y2 m1 m2 : ascii) (seq : str) :
  is_digit y1 = true -> is_digit y2 = true -> month_digits m1 m2 = true ->
  Forall (fun c => range "0" "9" c = true) seq -> (1 <= length seq <= 6)%nat ->
  strptime (strip (lit ".tar") (arxiv_key [y1; y2; m1; m2] seq)) key_format =
  Some (mk_datetime (two_digit_year (int_digits [y1; y2])) (int_digits [m1; m2]) 1 0 0 0
                    (int_digits (pad_fraction seq))).
Proof. apply wellformed_key_parses. Qed.

Lemma X1_wellformed_key_parses_witness :
  strptime (strip (lit ".tar") (arxiv_key (lit "2311") (lit "042"))) key_format =
  Some (mk_datetime (two_digit_year (int_digits (lit "23"))) (int_digits (lit "11"))
                    1 0 0 0 (int_digits (pad_fraction (lit "042")))).
Proof.
  apply (X1_wellformed_key_parses "2" "3" "1" "1" (lit "042"));
    try reflexivity.
  - repeat constructor.
  - simpl. lia.
Defined.

(** X2: whatever the cutoff, a key that is forwarded has a date on the
    first day of a month at midnight that is not before October 2023: since a
    key carries no day, the lower bound datetime(2023,9,19) drops every key of
    September 2023 and earlier. *)
Theorem X2_forwarded_not_before_october_2023 (cutoff : datetime) (s3_key : str) :
  forwarded cutoff s3_key = true ->
  exists d, strptime (strip (lit ".tar") s3_key) key_format = Some d /\
    day d = 1 /\ hour d = 0 /\ minute d = 0 /\ second d = 0 /\
    (2023 < year d \/ (year d = 2023 /\ 10 <= month d)) /\
    le d cutoff = true.
Proof.
  unfold forwarded.
  destruct (strptime (strip (lit ".tar") s3_key) key_format) as [d|] eqn:P; [|done].
  intros H. apply andb_true_iff in H as [H _]. apply andb_true_iff in H as [Hlo Hhi].
  destruct (strptime_shape _ _ _ P) as (Hd & Hh & Hmi & Hs).
  exists d. repeat split; try done. by apply le_lower_bound.
Qed.

Lemma X2_forwarded_not_before_october_2023_witness :
  exists d, strptime (strip (lit ".tar") (lit "src/arXiv_src_2311_042.tar")) key_format
              = Some d /\
    day d = 1 /\ hour d = 0 /\ minute d = 0 /\ second d = 0 /\
    (2023 < year d \/ (year d = 2023 /\ 10 <= month d)) /\
    le d main_cutoff = true.
Proof.
  apply (X2_forwarded_not_before_october_2023 main_cutoff (lit "src/arXiv_src_2311_042.tar")).
  vm_compute. reflexivity.
Defined.

Lemma X3_main_window_months_witness :
  forwarded main_cutoff (arxiv_key (lit "2401") (lit "001")) = true <->
  (two_digit_year (int_digits (lit "24")) = 2023 /\ 10 <= int_digits (lit "01")) \/
  (two_digit_year (int_digits (lit "24")) = 2024 /\ int_digits (lit "01") = 1 /\
   int_digits (pad_fraction (lit "001")) = 0).
Proof.
  apply (X3_main_window_months "2" "4" "0" "1" (lit "001")); try reflexivity.
  - repeat constructor.
  - simpl. lia.
Defined.

(** X4: str.strip('.tar') strips a set of characters, not a suffix: any run
    of the characters '.', 't', 'a', 'r' in front of a key or behind it leaves
    the parsed date as it is. *)
Theorem X4_strip_ignores_padding (a s3_key b : str) :
  Forall (fun c => mem_ch c (lit ".tar") = true) a ->
  Forall (fun c => mem_ch c (lit ".tar") = true) b ->
  strip (lit ".tar") (a ++ s3_key ++ b) = strip (lit ".tar") s3_key /\
  strptime (strip (lit ".tar") (a ++ s3_key ++ b)) key_format =
  strptime (strip (lit ".tar") s3_key) key_format.
Proof.
  intros Ha Hb. by rewrite strip_padding.
Qed.

Lemma X4_strip_ignores_padding_witness :
  strip (lit ".tar") (lit "tar." ++ lit "src/arXiv_src_2311_042" ++ lit ".rat.tar.tar")
    = strip (lit ".tar") (lit "src/arXiv_src_2311_042") /\
  strptime (strip (lit ".tar")
              (lit "tar." ++ lit "src/arXiv_src_2311_042" ++ lit ".rat.tar.tar")) key_format
    = strptime (strip (lit ".tar") (lit "src/arXiv_src_2311_042")) key_format.
Proof.
  apply (X4_strip_ignores_padding (lit "tar.") (lit "src/arXiv_src_2311_042")
           (lit ".rat.tar.tar")); repeat constructor.
Defined.

(** ** More on the fetcher and the archive walker *)

Lemma same_surroundings_refl (w : world) : same_surroundings w w.
Proof. by repeat split. Qed.

Lemma same_surroundings_trans (w1 w2 w3 : world) :
  same_surroundings w1 w2 -> same_surroundings w2 w3 -> same_surroundings w1 w3.
Proof.
  intros (B1 & D1 & E1 & F1) (B2 & D2 & E2 & F2). repeat split; congruence.
Qed.

Lemma keeps_ret {A} (a : A) : keeps_surroundings (ret a).
Proof. intros w. apply same_surroundings_refl. Qed.

Lemma keeps_raise {A} (e : exn) : keeps_surroundings (@raise A e).
Proof. intros w. apply same_surroundings_refl. Qed.

Lemma keeps_bind {A B} (m : M A) (f : A -> M B) :
  keeps_surroundings m -> (forall a, keeps_surroundings (f a)) ->
  keeps_surroundings (bind m f).
Proof.
  intros Hm Hf w. unfold bind. specialize (Hm w).
  destruct (m w) as [[a|e] w1]; simpl in Hm; [|exact Hm].
  eapply same_surroundings_trans; [exact Hm|apply Hf].
Qed.

Lemma keeps_try_except {A} (m : M A) (h : exn -> M A) :
  keeps_surroundings m -> (forall e, keeps_surroundings (h e)) ->
  keeps_surroundings (try_except m h).
Proof.
  intros Hm Hh w. unfold try_except. specialize (Hm w).
  destruct (m w) as [[a|e] w1]; simpl in Hm; [exact Hm|].
  eapply same_surroundings_trans; [exact Hm|apply Hh].
Qed.

Lemma keeps_for_each {A} (body : A -> M unit) (l : list A) :
  Forall (fun a => keeps_surroundings (body a)) l ->
  keeps_surroundings (for_each body l).
Proof.
  induction 1 as [|a l Ha _ IH]; simpl; [apply keeps_ret|].
  apply keeps_bind; [exact Ha|]. intros _. exact IH.
Qed.

Lemma keeps_syscall {A} (op : M A) :
  keeps_surroundings op -> keeps_surroundings (syscall op).
Proof.
  intros Hop w. unfold syscall. destruct (faults w (clock w)).
  - by repeat split.
  - specialize (Hop (tick w)). destruct Hop as (B & D & E & F). by repeat split.
Qed.

Lemma keeps_print (line : str) : keeps_surroundings (print line).
Proof. intros w. by repeat split. Qed.

Lemma keeps_path_exists (p : str) : keeps_surroundings (path_exists p).
Proof. intros w. by repeat split. Qed.

Lemma keeps_uuid4 : keeps_surroundings uuid4.
Proof. intros w. by repeat split. Qed.

Lemma keeps_download_file (key filename : str) :
  keeps_surroundings (download_file key filename).
Proof.
  apply keeps_syscall. intros w. simpl. destruct (bucket w !! key); by repeat split.
Qed.

Lemma keeps_open_wb (p : str) : keeps_surroundings (open_wb p).
Proof. apply keeps_syscall. intros w. by repeat split. Qed.

Lemma keeps_write (p : str) (b : blob) : keeps_surroundings (write p b).
Proof. apply keeps_syscall. intros w. by repeat split. Qed.

Lemma keeps_extractfile (m : member) : keeps_surroundings (extractfile m).
Proof. apply keeps_syscall, keeps_ret. Qed.

Lemma keeps_read (m : member) : keeps_surroundings (read m).
Proof. apply keeps_syscall, keeps_ret. Qed.

Lemma keeps_getmembers (ms : list member) : keeps_surroundings (getmembers ms).
Proof. apply keeps_syscall, keeps_ret. Qed.

Lemma keeps_open_rb (p : str) : keeps_surroundings (open_rb p).
Proof.
  apply keeps_syscall. intros w. simpl. destruct (fs w !! p); by repeat split.
Qed.

Lemma keeps_os_remove (p : str) : keeps_surroundings (os_remove p).
Proof.
  apply keeps_syscall. intros w. simpl. destruct (fs w !! p); by repeat split.
Qed.

Lemma keeps_generate_unique_filename (d n : str) :
  keeps_surroundings (generate_unique_filename d n).
Proof. apply keeps_bind; [apply keeps_uuid4|intros; apply keeps_ret]. Qed.

Lemma keeps_save_image (d : str) (m : member) : keeps_surroundings (save_image d m).
Proof.
  unfold save_image.
  apply keeps_bind; [apply keeps_generate_unique_filename|intros p].
  apply keeps_bind; [apply keeps_extractfile|intros f].
  apply keeps_bind; [apply keeps_open_wb|intros _].
  apply keeps_bind; [apply keeps_read|intros c].
  apply keeps_bind; [apply keeps_write|intros _].
  apply keeps_print.
Qed.

(* induction on a member through the members of the archive it holds *)
Lemma member_nested_ind (P : member -> Prop) :
  (forall n s t d,
     match d with
     | Comp Gzip (Tar nested) => Forall P nested
     | _ => True
     end -> P (Member n s t d)) ->
  forall m, P m.
Proof.
  intros H. fix F 1. intros [n s t d]. apply H.
  destruct d as [bytes|ms|c inner]; try exact I.
  destruct c; try exact I.
  destruct inner as [bytes|nested|c' inner']; try exact I.
  induction nested as [|x nested IH]; constructor; [apply F|exact IH].
Qed.

Lemma keeps_extract_member (save_dir : str) (m : member) :
  keeps_surroundings (extract_member save_dir m).
Proof.
  induction m as [n s t d IH] using member_nested_ind.
  cbn [extract_member].
  destruct (isfile (Member n s t d) && is_image_name n).
  - destruct (s <=? MAX_FILE_SIZE); [apply keeps_save_image|apply keeps_ret].
  - destruct (isfile (Member n s t d) && is_gz_name n); [|apply keeps_ret].
    apply keeps_bind; [apply keeps_generate_unique_filename|intros p].
    apply keeps_bind; [apply keeps_open_wb|intros _].
    apply keeps_bind; [apply keeps_extractfile|intros f].
    apply keeps_bind; [apply keeps_read|intros c].
    apply keeps_bind; [apply keeps_write|intros _].
    apply keeps_bind; [apply keeps_open_rb|intros _].
    destruct d as [bytes|ms|c0 inner]; try apply keeps_raise.
    destruct c0; try apply keeps_raise.
    destruct inner as [bytes|nested|c' inner']; try apply keeps_raise.
    apply keeps_bind; [apply keeps_getmembers|intros _].
    apply keeps_bind; [by apply keeps_for_each|intros _].
    apply keeps_os_remove.
Qed.

Lemma keeps_extract_images_from_archive (archive : list member) (save_dir : str) :
  keeps_surroundings (extract_images_from_archive archive save_dir).
Proof.
  apply keeps_bind; [apply keeps_getmembers|intros ms].
  apply keeps_for_each, Forall_forall. intros m _. apply keeps_extract_member.
Qed.

Lemma keeps_extract_images_from_gz (gz_path save_dir : str) :
  keeps_surroundings (extract_images_from_gz gz_path save_dir).
Proof.
  apply keeps_try_except; [|intros; apply keeps_print].
  apply keeps_bind; [apply keeps_open_rb|intros b].
  destruct b as [bytes|ms|c inner]; try apply keeps_raise.
  destruct c; try apply keeps_raise.
  destruct (tar_any inner); [apply keeps_extract_images_from_archive|apply keeps_raise].
Qed.

Lemma keeps_extract_from_tar_member (save_dir : str) (m : member) :
  keeps_surroundings (extract_from_tar_member save_dir m).
Proof.
  unfold extract_from_tar_member.
  destruct (isfile m && is_gz_name (name m)); [|apply keeps_ret].
  apply keeps_bind; [apply keeps_open_wb|intros _].
  apply keeps_bind; [apply keeps_extractfile|intros f].
  apply keeps_bind; [apply keeps_read|intros c].
  apply keeps_bind; [apply keeps_write|intros _].
  apply keeps_bind; [apply keeps_extract_images_from_gz|intros _].
  apply keeps_os_remove.
Qed.

Lemma no_faults_after (w w' : world) :
  no_faults w -> same_surroundings w w' -> no_faults w'.
Proof. intros H (_ & _ & _ & F) n. rewrite F. apply H. Qed.

(** X5: the walkers work on files only: running the inner walker on an
    archive, the gzip entry point on a path, or one turn of the outer walker
    on a member leaves the bucket and the set of directories as they were (no
    subdirectory is ever created, so the output stays flat), whatever the
    archives contain and whatever fails. *)
Theorem X5_walker_keeps_surroundings
    (archive : list member) (gz_path save_dir : str) (m : member) (w : world) :
  same_surroundings w (snd (extract_images_from_archive archive save_dir w)) /\
  same_surroundings w (snd (extract_images_from_gz gz_path save_dir w)) /\
  same_surroundings w (snd (extract_from_tar_member save_dir m w)).
Proof.
  split; [apply keeps_extract_images_from_archive|].
  split; [apply keeps_extract_images_from_gz|apply keeps_extract_from_tar_member].
Qed.

(** X6: the temporary file of the outer walker never survives its turn: for
    a regular member named .gz, when the environment inflicts no failure, the
    path save_dir/<basename> is absent from the disk after the turn, whether
    the nested archive was processed or turned out to be unreadable. *)
Theorem X6_outer_temp_file_removed (save_dir : str) (m : member) (w : world) :
  isfile m && is_gz_name (name m) = true ->
  no_faults w ->
  fs (snd (extract_from_tar_member save_dir m w)) !! join save_dir (basename (name m)) = None.
Proof.
  intros Hgz Hnf. unfold extract_from_tar_member. rewrite Hgz.
  set (p := join save_dir (basename (name m))).
  unfold no_faults in Hnf.
  unfold bind, open_wb, extractfile, read, write, syscall, ret. simpl.
  repeat (rewrite Hnf; simpl).
  match goal with
  | |- context [extract_images_from_gz p save_dir ?w4] =>
      destruct (extract_images_from_gz_returns p save_dir w4) as [w5 Hw5];
      pose proof (keeps_extract_images_from_gz p save_dir w4) as Hk;
      rewrite Hw5 in Hk |- *; simpl in Hk
  end.
  destruct Hk as (_ & _ & _ & Hf). simpl in Hf.
  unfold os_remove, syscall. rewrite Hf, Hnf.
  change (fs (tick w5)) with (fs w5).
  destruct (fs w5 !! p) eqn:E; simpl; [apply lookup_delete_eq|exact E].
Qed.

Lemma X6_outer_temp_file_removed_witness :
  fs (snd (extract_from_tar_member IMAGE_SAVE_DIR
             (Member (lit "2310/2310.00001.gz") 900000 Regular paper_with_eps)
             (quiet_world ∅ ∅)))
    !! join IMAGE_SAVE_DIR (basename (lit "2310/2310.00001.gz")) = None.
Proof.
  apply (X6_outer_temp_file_removed IMAGE_SAVE_DIR
           (Member (lit "2310/2310.00001.gz") 900000 Regular paper_with_eps)
           (quiet_world ∅ ∅)).
  - reflexivity.
  - intros n. reflexivity.
Defined.

(* the download in an environment without failures *)
Lemma fetch_ok (s3_key save_dir : str) (w : world) (b : blob) :
  no_faults w ->
  bucket w !! s3_key = Some b ->
  exists w1, fetch s3_key save_dir w = (Returns tt, w1) /\
    fs w1 = <[local_path_of s3_key save_dir := b]> (fs w) /\
    stdout w1 = stdout w ++ [lit "Downloaded: " ++ s3_key] /\
    no_faults w1 /\
    path_exists save_dir w1 = (Returns true, w1).
Proof.
  intros Hnf Hb. unfold no_faults in Hnf. unfold fetch, bind, path_exists.
  destruct (bool_decide (save_dir ∈ dirs w) || bool_decide (is_Some (fs w !! save_dir)))
    eqn:Hex; simpl.
  - unfold download_file, syscall. rewrite Hnf. simpl. rewrite Hb.
    eexists. split; [reflexivity|]. simpl. repeat split; try done.
    f_equal. f_equal. apply orb_true_iff in Hex as [Hex|Hex]; apply orb_true_iff.
    + by left.
    + right. apply bool_decide_eq_true. apply bool_decide_eq_true in Hex.
      rewrite lookup_insert. by case_decide.
  - unfold makedirs, syscall. rewrite Hnf. simpl. rewrite Hex.
    unfold download_file, syscall. simpl. rewrite Hnf. simpl. rewrite Hb.
    eexists. split; [reflexivity|]. simpl. repeat split; try done.
    f_equal. f_equal. apply orb_true_iff. left. apply bool_decide_eq_true.
    set_solver.
Qed.

(** X7: a key that is absent from the bucket leaves nothing behind: without
    other failures, download_and_extract_images prints the error of the
    download together with the key and returns, no "Downloaded" line appears
    and the disk holds the same files as before. *)
Theorem X7_missing_key_leaves_nothing (s3_key save_dir : str) (w : world) :
  bucket w !! s3_key = None ->
  no_faults w ->
  exists w', download_and_extract_images s3_key save_dir w = (Returns tt, w') /\
    fs w' = fs w /\
    stdout w' = stdout w ++
      [error_line s3_key
         (Exn "ClientError"
            (lit "An error occurred (404) when calling the HeadObject operation: Not Found"))].
Proof.
  intros Hb Hnf. unfold no_faults in Hnf.
  unfold download_and_extract_images, try_except, download_and_extract_body,
    fetch, bind, path_exists.
  destruct (bool_decide (save_dir ∈ dirs w) || bool_decide (is_Some (fs w !! save_dir)))
    eqn:Hex; simpl.
  - unfold download_file, syscall. rewrite Hnf. simpl. rewrite Hb.
    eexists. split; [reflexivity|]. by simpl.
  - unfold makedirs, syscall. rewrite Hnf. simpl. rewrite Hex.
    unfold download_file, syscall. simpl. rewrite Hnf. simpl. rewrite Hb.
    eexists. split; [reflexivity|]. by simpl.
Qed.

Lemma X7_missing_key_leaves_nothing_witness :
  exists w', download_and_extract_images (lit "src/arXiv_src_2310_001.tar") IMAGE_SAVE_DIR
               empty_bucket_world = (Returns tt, w') /\
    fs w' = fs empty_bucket_world /\
    stdout w' = stdout empty_bucket_world ++
      [error_line (lit "src/arXiv_src_2310_001.tar")
         (Exn "ClientError"
            (lit "An error occurred (404) when calling the HeadObject operation: Not Found"))].
Proof.
  apply (X7_missing_key_leaves_nothing (lit "src/arXiv_src_2310_001.tar") IMAGE_SAVE_DIR
           empty_bucket_world).
  - reflexivity.
  - intros n. reflexivity.
Defined.

(** X8: an object that is named like an archive but is not a tar (in any
    compression) stays on disk: the download succeeds, tarfile.open raises
    ReadError, the handler prints it with the key, and the deletion of the
    downloaded file, which comes after the extraction in the try block, is
    never reached. *)
Theorem X8_unreadable_archive_stays (s3_key save_dir : str) (w : world) (b : blob) :
  let local_path := local_path_of s3_key save_dir in
  endswith local_path (lit ".tar") || endswith local_path (lit ".tar.gz") = true ->
  bucket w !! s3_key = Some b ->
  tar_any b = None ->
  no_faults w ->
  exists w', download_and_extract_images s3_key save_dir w = (Returns tt, w') /\
    fs w' = <[local_path := b]> (fs w) /\
    stdout w' = stdout w ++
      [lit "Downloaded: " ++ s3_key;
       error_line s3_key (Exn "ReadError" (lit "file could not be opened successfully"))].
Proof.
  intros local_path Hsup Hb Hbad Hnf.
  destruct (fetch_ok s3_key save_dir w b Hnf Hb) as (w1 & Hf & Hfs & Hout & Hnf1 & Hex).
  fold local_path in Hfs. unfold no_faults in Hnf1.
  unfold download_and_extract_images, try_except, download_and_extract_body.
  fold local_path. rewrite (bind_returns _ _ _ _ _ Hf), Hsup.
  assert (Hext : extract_from_tar local_path save_dir w1 =
            (Raises (Exn "ReadError" (lit "file could not be opened successfully")),
             tick w1)).
  { unfold extract_from_tar. rewrite (bind_returns _ _ _ _ _ Hex).
    unfold bind, ret, open_rb, syscall. cbn [negb]. cbv beta iota. rewrite Hnf1.
    change (fs (tick w1)) with (fs w1). rewrite Hfs, lookup_insert_eq, Hbad.
    reflexivity. }
  rewrite (bind_raises _ _ _ _ _ Hext). unfold print.
  eexists. split; [reflexivity|]. simpl. rewrite Hfs, Hout, <- app_assoc. done.
Qed.

Lemma X8_unreadable_archive_stays_witness :
  exists w', download_and_extract_images (lit "src/broken.tar") IMAGE_SAVE_DIR
               (quiet_world {[ lit "src/broken.tar" := Raw (lit "<html>") ]} ∅)
             = (Returns tt, w') /\
    fs w' = <[local_path_of (lit "src/broken.tar") IMAGE_SAVE_DIR := Raw (lit "<html>")]> ∅ /\
    stdout w' = [] ++
      [lit "Downloaded: " ++ lit "src/broken.tar";
       error_line (lit "src/broken.tar")
         (Exn "ReadError" (lit "file could not be opened successfully"))].
Proof.
  apply (X8_unreadable_archive_stays (lit "src/broken.tar") IMAGE_SAVE_DIR
           (quiet_world {[ lit "src/broken.tar" := Raw (lit "<html>") ]} ∅)
           (Raw (lit "<html>"))).
  - reflexivity.
  - vm_compute. reflexivity.
  - reflexivity.
  - intros n. reflexivity.
Defined.

Lemma for_each_noop {A} (body : A -> M unit) (l : list A) :
  Forall (fun a => forall w, body a w = (Returns tt, w)) l ->
  forall w, for_each body l w = (Returns tt, w).
Proof.
  induction 1 as [|a l Ha _ IH]; intros w; simpl; [done|].
  unfold bind. rewrite Ha. apply IH.
Qed.

Lemma extract_from_tar_skips (save_dir : str) (ms : list member) (w : world) :
  Forall not_gz_member ms ->
  for_each (extract_from_tar_member save_dir) ms w = (Returns tt, w).
Proof.
  intros H. apply for_each_noop. eapply Forall_impl; [exact H|].
  intros m Hm w0. unfold extract_from_tar_member. unfold not_gz_member in Hm.
  by rewrite Hm.
Qed.

(** X9: an archive without any regular member named .gz (papers that are a
    single PDF, loose images, directories) is downloaded and deleted again:
    without failures the function returns normally, prints the download and
    the deletion, writes no image, and the disk is as before except that the
    local path of the archive is free. *)
Theorem X9_archive_without_gz_members
    (s3_key save_dir : str) (w : world) (b : blob) (ms : list member) :
  let local_path := local_path_of s3_key save_dir in
  endswith local_path (lit ".tar") || endswith local_path (lit ".tar.gz") = true ->
  bucket w !! s3_key = Some b ->
  tar_any b = Some ms ->
  Forall not_gz_member ms ->
  no_faults w ->
  exists w', download_and_extract_images s3_key save_dir w = (Returns tt, w') /\
    fs w' = delete local_path (fs w) /\
    stdout w' = stdout w ++ [lit "Downloaded: " ++ s3_key;
                             lit "Deleted archive: " ++ local_path].
Proof.
  intros local_path Hsup Hb Htar Hms Hnf.
  destruct (fetch_ok s3_key save_dir w b Hnf Hb) as (w1 & Hf & Hfs & Hout & Hnf1 & Hex).
  fold local_path in Hfs. unfold no_faults in Hnf1.
  assert (Hext : extract_from_tar local_path save_dir w1 = (Returns tt, tick (tick w1))).
  { unfold extract_from_tar. rewrite (bind_returns _ _ _ _ _ Hex).
    unfold bind, ret, open_rb, getmembers, syscall. cbn [negb]. cbv beta iota.
    rewrite Hnf1. change (fs (tick w1)) with (fs w1).
    rewrite Hfs, lookup_insert_eq. cbv beta iota. rewrite Htar. cbv beta iota.
    change (faults (tick w1)) with (faults w1). rewrite Hnf1.
    by apply extract_from_tar_skips. }
  assert (Hdel : delete_archive local_path (tick (tick w1)) =
            (Returns tt,
             set_stdout (fun out => out ++ [lit "Deleted archive: " ++ local_path])
               (set_fs (fun f => delete local_path f) (tick (tick (tick w1)))))).
  { unfold delete_archive, bind, path_exists, os_remove, syscall, print.
    change (fs (tick (tick w1))) with (fs w1).
    change (faults (tick (tick w1))) with (faults w1).
    rewrite Hfs, lookup_insert_eq.
    rewrite (bool_decide_eq_true_2 (is_Some (Some b))) by eauto.
    rewrite orb_true_r. cbv beta iota.
    change (faults (tick (tick w1))) with (faults w1). rewrite Hnf1.
    change (fs (tick (tick (tick w1)))) with (fs w1).
    by rewrite Hfs, lookup_insert_eq. }
  unfold download_and_extract_images, try_except, download_and_extract_body.
  fold local_path. rewrite (bind_returns _ _ _ _ _ Hf), Hsup.
  rewrite (bind_returns _ _ _ _ _ Hext), Hdel.
  eexists. split; [reflexivity|]. simpl.
  rewrite Hfs, Hout, <- app_assoc, delete_insert_eq. done.
Qed.

Lemma X9_archive_without_gz_members_witness :
  exists w', download_and_extract_images (lit "src/arXiv_src_2310_001.tar") IMAGE_SAVE_DIR
               (quiet_world
                  {[ lit "src/arXiv_src_2310_001.tar" :=
                       Tar [Member (lit "2310/2310.00003.pdf") 40000 Regular (Raw (lit "%PDF"));
                            Member (lit "2310/cover.png") 100 Regular (Raw (lit "PNG"))] ]} ∅)
             = (Returns tt, w') /\
    fs w' = delete (local_path_of (lit "src/arXiv_src_2310_001.tar") IMAGE_SAVE_DIR) ∅ /\
    stdout w' = [] ++ [lit "Downloaded: " ++ lit "src/arXiv_src_2310_001.tar";
                       lit "Deleted archive: " ++
                         local_path_of (lit "src/arXiv_src_2310_001.tar") IMAGE_SAVE_DIR].
Proof.
  apply (X9_archive_without_gz_members (lit "src/arXiv_src_2310_001.tar") IMAGE_SAVE_DIR
           (quiet_world
              {[ lit "src/arXiv_src_2310_001.tar" :=
                   Tar [Member (lit "2310/2310.00003.pdf") 40000 Regular (Raw (lit "%PDF"));
                        Member (lit "2310/cover.png") 100 Regular (Raw (lit "PNG"))] ]} ∅)
           (Tar [Member (lit "2310/2310.00003.pdf") 40000 Regular (Raw (lit "%PDF"));
                 Member (lit "2310/cover.png") 100 Regular (Raw (lit "PNG"))])
           [Member (lit "2310/2310.00003.pdf") 40000 Regular (Raw (lit "%PDF"));
            Member (lit "2310/cover.png") 100 Regular (Raw (lit "PNG"))]).
  - reflexivity.
  - vm_compute. reflexivity.
  - reflexivity.
  - repeat constructor.
  - intros n. reflexivity.
Defined.

(** X10: only the base name of a key reaches the disk: the local path is
    the output directory joined with what follows the last slash of the key,
    so its last component is the base name of the key, under ./arxiv_images it
    is "./arxiv_images/" followed by that base name, and two keys with the
    same base name share one local file. *)
Theorem X10_local_path_keeps_base_name (s3_key save_dir : str) :
  basename (local_path_of s3_key save_dir) = basename s3_key /\
  local_path_of s3_key IMAGE_SAVE_DIR = lit "./arxiv_images/" ++ basename s3_key /\
  (forall other : str, basename other = basename s3_key ->
     local_path_of other save_dir = local_path_of s3_key save_dir).
Proof.
  pose proof (basename_noslash s3_key) as Hns.
  split; [by apply basename_join|]. split.
  - unfold local_path_of, join.
    assert (Hs : startswith (basename s3_key) (lit "/") = false).
    { destruct (basename s3_key) as [|c f]; simpl; [done|].
      apply Forall_cons in Hns as [Hc _]. apply ch_eqb_false in Hc. by rewrite Hc. }
    rewrite Hs. reflexivity.
  - intros other Ho. unfold local_path_of. by rewrite Ho.
Qed.

Lemma X10_local_path_keeps_base_name_witness :
  local_path_of (lit "mirror/old/arXiv_src_2310_001.tar") IMAGE_SAVE_DIR =
  local_path_of (lit "src/arXiv_src_2310_001.tar") IMAGE_SAVE_DIR.
Proof.
  apply (proj2 (proj2 (X10_local_path_keeps_base_name
                         (lit "src/arXiv_src_2310_001.tar") IMAGE_SAVE_DIR))).
  vm_compute. reflexivity.
Defined.

Lemma pages_without_forwarded_keys (cutoff : datetime) (listing : list page) :
  nothing_forwarded cutoff listing ->
  forall w, no_faults w ->
  exists w', for_each (process_page cutoff) listing w = (Returns tt, w') /\
    fs w' = fs w /\ bucket w' = bucket w /\ dirs w' = dirs w /\
    stdout w' = stdout w ++ empty_page_lines cutoff listing.
Proof.
  induction 1 as [|result listing Hr _ IH]; intros w Hnf.
  - exists w. simpl. by rewrite app_nil_r.
  - assert (Hnf' : no_faults (tick w)) by exact Hnf.
    simpl for_each. unfold bind at 1. unfold process_page at 1.
    unfold bind at 1. unfold syscall at 1. rewrite Hnf. unfold ret at 1.
    destruct result as [contents|].
    + rewrite for_each_noop.
      * destruct (IH (tick w) Hnf') as (w' & Hrun & Hfs & Hb & Hd & Hout).
        exists w'. by rewrite Hrun.
      * eapply Forall_impl; [exact Hr|]. intros k Hk w0.
        by rewrite process_item_forwarded, Hk.
    + unfold print at 1.
      destruct (IH (set_stdout (fun out => out ++ [lit "No files found for year " ++
                                                     to_str cutoff]) (tick w)) Hnf')
        as (w' & Hrun & Hfs & Hb & Hd & Hout).
      exists w'. rewrite Hrun. repeat split; try done.
      rewrite Hout. simpl. by rewrite <- app_assoc.
Qed.

(** X11: a run over a listing in which no key passes the lister downloads
    nothing: without failures it returns normally, the files on disk and the
    bucket are untouched, and the only output is one diagnostic line for each
    page that has no 'Contents'. *)
Theorem X11_run_without_forwarded_keys
    (cutoff : datetime) (listing : list page) (w : world) :
  nothing_forwarded cutoff listing ->
  no_faults w ->
  exists w', process_arxiv_files cutoff listing w = (Returns tt, w') /\
    fs w' = fs w /\ bucket w' = bucket w /\
    stdout w' = stdout w ++ empty_page_lines cutoff listing.
Proof.
  intros Hl Hnf. unfold process_arxiv_files, bind, path_exists.
  destruct (bool_decide (IMAGE_SAVE_DIR ∈ dirs w) ||
            bool_decide (is_Some (fs w !! IMAGE_SAVE_DIR))) eqn:Hex; simpl.
  - destruct (pages_without_forwarded_keys cutoff listing Hl w Hnf)
      as (w' & Hrun & Hfs & Hb & _ & Hout).
    exists w'. by rewrite Hrun.
  - unfold makedirs, syscall. rewrite Hnf. simpl. rewrite Hex.
    destruct (pages_without_forwarded_keys cutoff listing Hl
                (set_dirs (fun d => {[IMAGE_SAVE_DIR]} ∪ d) (tick w)) Hnf)
      as (w' & Hrun & Hfs & Hb & _ & Hout).
    exists w'. by rewrite Hrun.
Qed.

Lemma X11_run_without_forwarded_keys_witness :
  exists w', process_arxiv_files main_cutoff
               [Some [lit "src/arXiv_src_2309_001.tar"; lit "src/arXiv_src_manifest.xml"]; None]
               empty_bucket_world = (Returns tt, w') /\
    fs w' = fs empty_bucket_world /\ bucket w' = bucket empty_bucket_world /\
    stdout w' = stdout empty_bucket_world ++
      empty_page_lines main_cutoff
        [Some [lit "src/arXiv_src_2309_001.tar"; lit "src/arXiv_src_manifest.xml"]; None].
Proof.
  apply (X11_run_without_forwarded_keys main_cutoff
           [Some [lit "src/arXiv_src_2309_001.tar"; lit "src/arXiv_src_manifest.xml"]; None]
           empty_bucket_world).
  - repeat constructor; vm_compute; reflexivity.
  - intros n. reflexivity.
Defined.

Lemma lower_ch_idem (c : ascii) : lower_ch (lower_ch c) = lower_ch c.
Proof. destruct c as [[] [] [] [] [] [] [] []]; reflexivity. Qed.

Lemma lower_idem (s : str) : lower (lower s) = lower s.
Proof.
  unfold lower. rewrite map_map. apply map_ext. intros c. apply lower_ch_idem.
Qed.

Lemma endswith_last_differs (s t t' : str) (c c' : ascii) :
  c <> c' -> endswith s (t ++ [c]) = true -> endswith s (t' ++ [c']) = false.
Proof.
  intros Hne H. destruct (endswith s (t' ++ [c'])) eqn:E; [|done].
  apply endswith_inv in H as [u ->]. apply endswith_inv in E as [u' E].
  rewrite !app_assoc in E. by apply app_inj_tail in E as [_ ->].
Qed.

(** X12: the two name tests of the walker do not depend on the case of the
    name (a member called FIG.PNG or PAPER.GZ is treated like fig.png or
    paper.gz), and they exclude each other: a name that is taken for an image
    is never taken for a nested archive, so the order of the two branches of
    the loop does not matter. *)
Theorem X12_name_tests (n : str) :
  is_image_name (lower n) = is_image_name n /\
  is_gz_name (lower n) = is_gz_name n /\
  (is_image_name n = true -> is_gz_name n = false).
Proof.
  split; [|split].
  - unfold is_image_name. by rewrite lower_idem.
  - unfold is_gz_name. by rewrite lower_idem.
  - unfold is_image_name, is_gz_name, SUPPORTED_IMAGE_FORMATS. simpl existsb.
    rewrite orb_false_r. intros H.
    repeat (apply orb_true_iff in H as [H|H]).
    + by apply (endswith_last_differs _ (lit ".pn") (lit ".g") "g" "z").
    + by apply (endswith_last_differs _ (lit ".jp") (lit ".g") "g" "z").
    + by apply (endswith_last_differs _ (lit ".jpe") (lit ".g") "g" "z").
    + by apply (endswith_last_differs _ (lit ".gi") (lit ".g") "f" "z").
Qed.

Lemma X12_name_tests_witness : is_gz_name (lit "fig/Plot.JPEG") = false.
Proof.
  apply (proj2 (proj2 (X12_name_tests (lit "fig/Plot.JPEG")))).
  vm_compute. reflexivity.
Defined.

Lemma save_image_ok (save_dir : str) (m : member) (w : world) :
  no_faults w ->
  let save_path :=
    join save_dir (unique_filename (basename (name m)) (uuid4_of (entropy w (drawn w)))) in
  exists w', save_image save_dir m w = (Returns tt, w') /\
    fs w' = <[save_path := data m]> (fs w) /\
    stdout w' = stdout w ++ [image_line save_path] /\
    drawn w' = S (drawn w) /\ entropy w' = entropy w /\ no_faults w'.
Proof.
  intros Hnf save_path. unfold no_faults in Hnf.
  unfold save_image, generate_unique_filename, bind, uuid4, ret, open_wb,
    extractfile, read, write, print, syscall. simpl.
  repeat (rewrite Hnf; simpl).
  eexists. split; [reflexivity|]. simpl. repeat split; try done.
  apply insert_insert_eq.
Qed.

Lemma flat_members (save_dir : str) (ms : list member) :
  Forall (fun m => is_nested_candidate m = false) ms ->
  forall w, no_faults w ->
  exists w', for_each (extract_member save_dir) ms w = (Returns tt, w') /\
    stdout w' = stdout w ++ image_lines save_dir (entropy w) (drawn w) ms /\
    drawn w' = (drawn w + length (image_lines save_dir (entropy w) (drawn w) ms))%nat /\
    (forall p, is_Some (fs w' !! p) <->
       is_Some (fs w !! p) \/
       In (image_line p) (image_lines save_dir (entropy w) (drawn w) ms)).
Proof.
  induction 1 as [|m ms Hm _ IH]; intros w Hnf.
  - exists w. simpl. rewrite app_nil_r, Nat.add_0_r.
    split; [done|]. split; [done|]. split; [done|]. intros p. tauto.
  - simpl for_each. unfold bind at 1. rewrite extract_member_eq.
    unfold is_nested_candidate in Hm. simpl image_lines. unfold qualifies.
    destruct (isfile m && is_image_name (name m)) eqn:Hi; simpl in Hm |- *.
    + destruct (size m <=? MAX_FILE_SIZE) eqn:Hs.
      * destruct (save_image_ok save_dir m w Hnf)
          as (w1 & Hrun & Hfs & Hout & Hdr & Hen & Hnf1).
        rewrite Hrun.
        destruct (IH w1 Hnf1) as (w' & Hrun' & Hout' & Hdr' & Hfs').
        rewrite Hen, Hdr in Hout', Hdr', Hfs'.
        exists w'. split; [exact Hrun'|]. split; [|split].
        -- by rewrite Hout', Hout, <- app_assoc.
        -- rewrite Hdr'. simpl. lia.
        -- intros p. rewrite Hfs', Hfs, lookup_insert_is_Some. simpl.
           unfold image_line at 2.
           split.
           ++ intros [[->|[_ H]]|H]; auto.
           ++ intros [H|[H|H]]; auto.
              ** destruct (decide (join save_dir
                    (unique_filename (basename (name m)) (uuid4_of (entropy w (drawn w)))) = p));
                   auto.
              ** apply app_inv_head in H. auto.
      * destruct (IH w Hnf) as (w' & Hrun' & Hout' & Hdr' & Hfs'). by exists w'.
    + rewrite Hm. destruct (IH w Hnf) as (w' & Hrun' & Hout' & Hdr' & Hfs'). by exists w'.
Qed.

(** X13: on an archive without nested archives the inner walker, when
    nothing fails, copies the members that pass the filter and nothing else:
    it prints one "Extracted image" line for each of them, in the order of the
    archive, uses one random identifier for each (none for the members it
    skips), and the files on disk afterwards are those that were there before
    together with exactly the printed paths. *)
Theorem X13_flat_archive_outputs (archive : list member) (save_dir : str) (w : world) :
  Forall (fun m => is_nested_candidate m = false) archive ->
  no_faults w ->
  exists w', extract_images_from_archive archive save_dir w = (Returns tt, w') /\
    stdout w' = stdout w ++ image_lines save_dir (entropy w) (drawn w) archive /\
    drawn w' = (drawn w + length (image_lines save_dir (entropy w) (drawn w) archive))%nat /\
    (forall p, is_Some (fs w' !! p) <->
       is_Some (fs w !! p) \/
       In (image_line p) (image_lines save_dir (entropy w) (drawn w) archive)).
Proof.
  intros Hflat Hnf. unfold extract_images_from_archive, bind, getmembers, syscall, ret.
  rewrite Hnf.
  destruct (flat_members save_dir archive Hflat (tick w) Hnf) as (w' & Hrun & H).
  exists w'. split; [exact Hrun|exact H].
Qed.

Lemma X13_flat_archive_outputs_witness :
  exists w', extract_images_from_archive
               [small_png; Member (lit "big.gif") 800000 Regular (Raw (lit "GIF"));
                Member (lit "notes.txt") 10 Regular (Raw (lit "txt")); other_png]
               IMAGE_SAVE_DIR (quiet_world ∅ ∅) = (Returns tt, w') /\
    stdout w' = [] ++ image_lines IMAGE_SAVE_DIR (fun n => Z.of_nat n) 0
                  [small_png; Member (lit "big.gif") 800000 Regular (Raw (lit "GIF"));
                   Member (lit "notes.txt") 10 Regular (Raw (lit "txt")); other_png] /\
    drawn w' = (0 + length (image_lines IMAGE_SAVE_DIR (fun n => Z.of_nat n) 0
                  [small_png; Member (lit "big.gif") 800000 Regular (Raw (lit "GIF"));
                   Member (lit "notes.txt") 10 Regular (Raw (lit "txt")); other_png]))%nat /\
    (forall p, is_Some (fs w' !! p) <->
       is_Some ((∅ : gmap str blob) !! p) \/
       In (image_line p) (image_lines IMAGE_SAVE_DIR (fun n => Z.of_nat n) 0
                  [small_png; Member (lit "big.gif") 800000 Regular (Raw (lit "GIF"));
                   Member (lit "notes.txt") 10 Regular (Raw (lit "txt")); other_png])).
Proof.
  apply (X13_flat_archive_outputs
           [small_png; Member (lit "big.gif") 800000 Regular (Raw (lit "GIF"));
            Member (lit "notes.txt") 10 Regular (Raw (lit "txt")); other_png]
           IMAGE_SAVE_DIR (quiet_world ∅ ∅)).
  - repeat constructor.
  - intros n. reflexivity.
Defined.

Lemma os_remove_returns (p : str) (w w' : world) :
  os_remove p w = (Returns tt, w') -> fs w' !! p = None.
Proof.
  unfold os_remove, syscall. destruct (faults w (clock w)); [done|].
  change (fs (tick w)) with (fs w). destruct (fs w !! p); [|done].
  intros [= <-]. apply lookup_delete_eq.
Qed.

(** X14: what the inner walker does with a member named .gz that is not a
    gzip-compressed tar (a compressed figure, say): without failures of the
    environment the turn raises the ReadError of tarfile.open, and the
    temporary copy of the member is left on disk under its generated name;
    nothing is printed. *)
Theorem X14_unreadable_nested_member (save_dir : str) (m : member) (w : world) :
  is_nested_candidate m = true ->
  tar_gz (data m) = None ->
  no_faults w ->
  let temp :=
    join save_dir (unique_filename (basename (name m)) (uuid4_of (entropy w (drawn w)))) in
  exists w', extract_member save_dir m w = (Raises (gz_open_error (data m)), w') /\
    fs w' = <[temp := data m]> (fs w) /\
    stdout w' = stdout w.
Proof.
  intros Hc Hbad Hnf temp. unfold no_faults in Hnf.
  rewrite extract_member_eq. unfold is_nested_candidate in Hc.
  apply andb_true_iff in Hc as [Hi Hg]. apply negb_true_iff in Hi. rewrite Hi, Hg.
  unfold recurse_into_gz, generate_unique_filename, bind, uuid4, ret, open_wb,
    extractfile, read, write, open_rb, syscall. simpl.
  repeat (rewrite Hnf; simpl). fold temp.
  rewrite lookup_insert_eq, Hbad. unfold raise.
  eexists. split; [reflexivity|]. simpl. split; [|done]. apply insert_insert_eq.
Qed.

Lemma X14_unreadable_nested_member_witness :
  exists w', extract_member IMAGE_SAVE_DIR
               (Member (lit "fig/diagram.eps.gz") 2048 Regular
                  (Comp Gzip (Raw (lit "%!PS-Adobe")))) (quiet_world ∅ ∅)
             = (Raises (gz_open_error (Comp Gzip (Raw (lit "%!PS-Adobe")))), w') /\
    fs w' = <[join IMAGE_SAVE_DIR (unique_filename (lit "diagram.eps.gz") (uuid4_of 0)) :=
                Comp Gzip (Raw (lit "%!PS-Adobe"))]> ∅ /\
    stdout w' = [].
Proof.
  apply (X14_unreadable_nested_member IMAGE_SAVE_DIR
           (Member (lit "fig/diagram.eps.gz") 2048 Regular
              (Comp Gzip (Raw (lit "%!PS-Adobe")))) (quiet_world ∅ ∅)).
  - reflexivity.
  - reflexivity.
  - intros n. reflexivity.
Defined.

(** X15: when the turn of the inner walker on a nested archive returns
    normally, its temporary file is gone: the path generated for the member is
    absent from the disk afterwards. *)
Theorem X15_inner_temp_removed_on_return (save_dir : str) (m : member) (w : world) :
  is_nested_candidate m = true ->
  fst (extract_member save_dir m w) = Returns tt ->
  fs (snd (extract_member save_dir m w))
    !! join save_dir (unique_filename (basename (name m)) (uuid4_of (entropy w (drawn w))))
  = None.
Proof.
  intros Hc. destruct (extract_member save_dir m w) as [o w'] eqn:E.
  simpl. intros ->. rewrite extract_member_eq in E.
  unfold is_nested_candidate in Hc.
  apply andb_true_iff in Hc as [Hi Hg]. apply negb_true_iff in Hi.
  rewrite Hi, Hg in E.
  set (p := join save_dir _).
  unfold recurse_into_gz, generate_unique_filename in E.
  unfold bind at 1 in E. unfold bind at 1 in E. unfold uuid4, ret in E. fold p in E.
  unfold bind in E.
  destruct (open_wb p (draw w)) as [[[]|e1] w1]; [|done].
  destruct (extractfile m w1) as [[f|e2] w2]; [|done].
  destruct (read f w2) as [[c|e3] w3]; [|done].
  destruct (write p c w3) as [[[]|e4] w4]; [|done].
  destruct (open_rb p w4) as [[b|e5] w5]; [|done].
  destruct (tar_gz (data m)) as [nested|]; [|done].
  destruct (extract_images_from_archive nested save_dir w5) as [[[]|e6] w6]; [|done].
  by eapply os_remove_returns.
Qed.

Lemma X15_inner_temp_removed_on_return_witness :
  fs (snd (extract_member IMAGE_SAVE_DIR
             (Member (lit "inner/source.tar.gz") 5000 Regular paper_two_images)
             (quiet_world ∅ ∅)))
    !! join IMAGE_SAVE_DIR
         (unique_filename (basename (lit "inner/source.tar.gz")) (uuid4_of 0))
  = None.
Proof.
  apply (X15_inner_temp_removed_on_return IMAGE_SAVE_DIR
           (Member (lit "inner/source.tar.gz") 5000 Regular paper_two_images)
           (quiet_world ∅ ∅)).
  - reflexivity.
  - vm_compute. reflexivity.
Defined.
